(** * mcp-reminders: the reminder store of [src/index.ts]

    A shallow embedding of [ReminderManager] (the in-memory [Map] of
    reminders mirrored to [~/.claude_reminders.json]) together with the
    properties of its six operations.

    Conventions of the embedding:
    - a JS [Map<string, Reminder>] is an insertion-ordered association list
      with unique keys;
    - clock readings ([Date.now()], [new Date()]), the random string of
      [Math.random().toString(36)] and the outcome of every file-system call
      are explicit arguments of the operation that performs them;
    - the JS [Date] string conversions are an interface ([DateLib]); nothing
      is assumed about them. *)

From Stdlib Require Import ZArith List String Ascii Bool Lia Permutation Sorted.
From Stdlib Require Import DecimalString.
From Stdlib Require DecimalZ DecimalPos.
Import ListNotations.
Local Open Scope string_scope.
Local Open Scope Z_scope.

Set Implicit Arguments.
Set Warnings "-register-all".

(* ================================================================= *)
(** ** JavaScript numbers and dates *)

(** The numbers the store computes with are millisecond counts and rank
    differences; the only non-integer that can arise is [NaN], the time
    value of an unparseable date string. *)
Inductive JSNum : Type :=
| Num (z : Z)
| NaN.

Definition js_sub (a b : JSNum) : JSNum :=
  match a, b with
  | Num x, Num y => Num (x - y)
  | _, _ => NaN
  end.

(** [a < b] on numbers: false as soon as one side is [NaN]. *)
Definition js_lt (a b : JSNum) : bool :=
  match a, b with
  | Num x, Num y => x <? y
  | _, _ => false
  end.

(** [a !== 0]. *)
Definition js_nonzero (a : JSNum) : bool :=
  match a with
  | Num x => negb (x =? 0)
  | NaN => true
  end.

(** The two [Date] conversions the store relies on:
    [toISOString t] is [new Date(t).toISOString()] and
    [getTime s] is [new Date(s).getTime()]. *)
Class DateLib : Type := {
  toISOString : Z -> string;
  getTime : string -> JSNum
}.

(** [`${n}`] for an integer [n]. *)
Definition Z_to_string (n : Z) : string :=
  NilZero.string_of_int (Z.to_int n).

(** [s.split(c)[0]]: the part of [s] before the first [c]. *)
Fixpoint split_head (c : ascii) (s : string) : string :=
  match s with
  | EmptyString => EmptyString
  | String a rest => if Ascii.eqb a c then EmptyString else String a (split_head c rest)
  end.

(** [s.substr(start, len)]. *)
Definition substr (start len : nat) (s : string) : string :=
  substring start len s.

Definition newline : string := String (ascii_of_nat 10) EmptyString.

(* ================================================================= *)
(** ** The data model *)

Inductive Priority : Type := high | normal | low.
Inductive Status : Type := active | completed | moved.

Definition Priority_eqb (a b : Priority) : bool :=
  match a, b with
  | high, high | normal, normal | low, low => true
  | _, _ => false
  end.

Definition Status_eqb (a b : Status) : bool :=
  match a, b with
  | active, active | completed, completed | moved, moved => true
  | _, _ => false
  end.

Definition Priority_string (p : Priority) : string :=
  match p with
  | high => "high"
  | normal => "normal"
  | low => "low"
  end.

Definition Status_string (s : Status) : string :=
  match s with
  | active => "active"
  | completed => "completed"
  | moved => "moved"
  end.

(** [interface Reminder]; the optional [completed] property is an option. *)
Record Reminder : Type := mkReminder {
  id : string;
  content : string;
  priority : Priority;
  created : string;
  completed_at : option string;
  status : Status
}.

(** [reminder.status = st]. *)
Definition set_status (st : Status) (r : Reminder) : Reminder :=
  mkReminder (id r) (content r) (priority r) (created r) (completed_at r) st.

(** [reminder.completed = t]. *)
Definition set_completed (t : string) (r : Reminder) : Reminder :=
  mkReminder (id r) (content r) (priority r) (created r) (Some t) (status r).

(* ================================================================= *)
(** ** JavaScript [Map] with string keys *)

Module JSMap.
Section Ops.
Variable V : Type.

(** Entries in insertion order. *)
Definition t : Type := list (string * V).

Definition empty : t := [].

Fixpoint get (k : string) (m : t) : option V :=
  match m with
  | [] => None
  | (k', v) :: rest => if String.eqb k' k then Some v else get k rest
  end.

Definition has (k : string) (m : t) : bool :=
  match get k m with Some _ => true | None => false end.

(** [m.set(k, v)]: an existing key keeps its place, a new key goes last. *)
Fixpoint set (k : string) (v : V) (m : t) : t :=
  match m with
  | [] => [(k, v)]
  | (k', v') :: rest =>
      if String.eqb k' k then (k, v) :: rest else (k', v') :: set k v rest
  end.

(** The entries left by [m.delete(k)]. *)
Fixpoint remove (k : string) (m : t) : t :=
  match m with
  | [] => []
  | (k', v') :: rest =>
      if String.eqb k' k then rest else (k', v') :: remove k rest
  end.

(** [m.delete(k)]: whether the key was present, and the entries left. *)
Definition delete (k : string) (m : t) : bool * t :=
  (has k m, remove k m).

Definition keys (m : t) : list string := map fst m.
Definition values (m : t) : list V := map snd m.

(** [new Map(entries)]: the entries are [set] one after the other. *)
Definition of_entries (es : list (string * V)) : t :=
  fold_left (fun m e => set (fst e) (snd e) m) es empty.

(** What the JS [Map] guarantees by construction: no key occurs twice. *)
Definition ok (m : t) : Prop := NoDup (keys m).
End Ops.
End JSMap.

(* ================================================================= *)
(** ** Ordinary JavaScript objects and JSON values *)

(** An array index is a canonical numeric string below [2^32 - 1]; own
    property keys that are array indices are enumerated first, in ascending
    numeric order, then the other string keys in creation order. *)
Definition array_index (k : string) : option Z :=
  match NilEmpty.uint_of_string k with
  | Some u =>
      let n := Z.of_uint u in
      if (String.eqb (Z_to_string n) k && (n <? 2 ^ 32 - 1))%bool then Some n else None
  | None => None
  end.

Module JSObject.
Section Ops.
Variable V : Type.

(** Own enumerable string-keyed properties, in [OwnPropertyKeys] order. *)
Definition t : Type := list (string * V).

(** Whether a new property [k] is enumerated before the existing [k']. *)
Definition key_before (k k' : string) : bool :=
  match array_index k, array_index k' with
  | Some n, Some n' => n <? n'
  | Some _, None => true
  | None, _ => false
  end.

Fixpoint insert (k : string) (v : V) (o : t) : t :=
  match o with
  | [] => [(k, v)]
  | (k', v') :: rest =>
      if key_before k k' then (k, v) :: o else (k', v') :: insert k v rest
  end.

(** [CreateDataProperty(o, k, v)]. *)
Definition define (k : string) (v : V) (o : t) : t :=
  if JSMap.has k o then JSMap.set k v o else insert k v o.

(** [Object.fromEntries(iterable)]. *)
Definition fromEntries (es : list (string * V)) : t :=
  fold_left (fun o e => define (fst e) (snd e) o) es [].

(** [Object.entries(o)] on an ordinary object. *)
Definition entries (o : t) : list (string * V) := o.
End Ops.
End JSObject.

(** The values [JSON.parse] can produce. *)
Inductive JSON : Type :=
| JNull
| JBool (b : bool)
| JNumber (z : Z)
| JStr (s : string)
| JArr (elems : list JSON)
| JObj (props : list (string * JSON)).

(** The object [JSON.stringify] sees for a reminder: the five properties of
    the literal in [addReminder], then [completed] once it has been set. *)
Definition Reminder_toJSON (r : Reminder) : JSON :=
  JObj ([("id", JStr (id r));
         ("content", JStr (content r));
         ("priority", JStr (Priority_string (priority r)));
         ("created", JStr (created r));
         ("status", JStr (Status_string (status r)))]
        ++ match completed_at r with
           | Some t => [("completed", JStr t)]
           | None => []
           end).

Definition Priority_of_string (s : string) : option Priority :=
  if String.eqb s "high" then Some high
  else if String.eqb s "normal" then Some normal
  else if String.eqb s "low" then Some low
  else None.

Definition Status_of_string (s : string) : option Status :=
  if String.eqb s "active" then Some active
  else if String.eqb s "completed" then Some completed
  else if String.eqb s "moved" then Some moved
  else None.

Definition prop_string (k : string) (props : list (string * JSON)) : option string :=
  match JSMap.get k props with
  | Some (JStr s) => Some s
  | _ => None
  end.

(** [loadReminders] uses the parsed values at type [Reminder] unchecked.
    [Reminder_ofJSON] reads the properties that the interface declares and
    is [None] on a value that does not inhabit the interface. *)
Definition Reminder_ofJSON (j : JSON) : option Reminder :=
  match j with
  | JObj props =>
      match prop_string "id" props, prop_string "content" props,
            prop_string "priority" props, prop_string "created" props,
            prop_string "status" props with
      | Some i, Some c, Some p, Some cr, Some st =>
          match Priority_of_string p, Status_of_string st with
          | Some p', Some st' =>
              match JSMap.get "completed" props with
              | None => Some (mkReminder i c p' cr None st')
              | Some (JStr t) => Some (mkReminder i c p' cr (Some t) st')
              | Some _ => None
              end
          | _, _ => None
          end
      | _, _, _, _, _ => None
      end
  | _ => None
  end.

Fixpoint indexed (A : Type) (i : Z) (l : list A) : list (string * A) :=
  match l with
  | [] => []
  | x :: rest => (Z_to_string i, x) :: indexed (i + 1) rest
  end.

Fixpoint chars (s : string) : list JSON :=
  match s with
  | EmptyString => []
  | String c rest => JStr (String c EmptyString) :: chars rest
  end.

(** [Object.entries(parsed)]; [None] is the [TypeError] raised on [null]. *)
Definition Object_entries (j : JSON) : option (list (string * JSON)) :=
  match j with
  | JNull => None
  | JBool _ | JNumber _ => Some []
  | JStr s => Some (indexed 0 (chars s))
  | JArr elems => Some (indexed 0 elems)
  | JObj props => Some (JSObject.entries props)
  end.

Fixpoint decode_entries (es : list (string * JSON)) : option (list (string * Reminder)) :=
  match es with
  | [] => Some []
  | (k, j) :: rest =>
      match Reminder_ofJSON j, decode_entries rest with
      | Some r, Some rs => Some ((k, r) :: rs)
      | _, _ => None
      end
  end.

(* ================================================================= *)
(** ** The store and its persistence *)

(** What is on disk at [remindersPath]: JSON text (kept as the value it
    parses to) or text that [JSON.parse] rejects. *)
Inductive FileContent : Type :=
| Json (j : JSON)
| Corrupt.

(** Outcome of a [fs.writeFileSync]: done, or an exception that leaves
    [residue] on disk. *)
Inductive WriteResult (F : Type) : Type :=
| Written
| WriteFailed (residue : option F).
Arguments Written {F}.
Arguments WriteFailed {F} residue.

Record Store : Type := mkStore {
  reminders : JSMap.t Reminder;
  remindersFile : option FileContent;
  notesDir : list (string * string)
}.

(** The value written by [saveReminders]:
    [JSON.stringify(Object.fromEntries(this.reminders))]. *)
Definition persisted_form (m : JSMap.t Reminder) : JSON :=
  JObj (map (fun e => (fst e, Reminder_toJSON (snd e))) (JSObject.fromEntries m)).

(** [loadReminders], run by the constructor on an empty [Map]. The outer
    [None] marks file contents whose values are not reminders. *)
Definition loadReminders (file : option FileContent) : option (JSMap.t Reminder) :=
  match file with
  | None => Some (JSMap.empty Reminder)
  | Some Corrupt => Some (JSMap.empty Reminder)
  | Some (Json parsed) =>
      match Object_entries parsed with
      | None => Some (JSMap.empty Reminder)
      | Some es =>
          match decode_entries es with
          | Some rs => Some (JSMap.of_entries rs)
          | None => None
          end
      end
  end.

(** [saveReminders]: the exception of a failed write is caught and logged. *)
Definition saveReminders (w : WriteResult FileContent) (s : Store) : Store :=
  match w with
  | Written => mkStore (reminders s) (Some (Json (persisted_form (reminders s)))) (notesDir s)
  | WriteFailed residue => mkStore (reminders s) residue (notesDir s)
  end.

(* ================================================================= *)
(** ** [Array.prototype.sort] *)

(** The language fixes the result of [sort] for a consistent comparator: it
    is the stable arrangement. Insertion from the right, stopping in front
    of the first element that does not compare below, computes it. For a
    comparator that is not consistent the language leaves the order to the
    engine; the statements about order below assume [dated], under which
    the comparator of [getReminders] is consistent, and the others use
    only which elements the result holds. *)
Section ArraySort.
Variable A : Type.
Variable comparefn : A -> A -> JSNum.

(** The value [sort] uses for a comparator result: [NaN] counts as [+0]. *)
Definition SortCompare (x y : A) : Z :=
  match comparefn x y with
  | Num v => v
  | NaN => 0
  end.

(** [x] does not compare above [y]: it may stay in front of it. *)
Definition sorts_before (x y : A) : Prop := SortCompare x y <= 0.

Fixpoint sort_insert (x : A) (l : list A) : list A :=
  match l with
  | [] => [x]
  | y :: rest => if SortCompare x y <=? 0 then x :: l else y :: sort_insert x rest
  end.

Definition Array_sort (l : list A) : list A :=
  fold_right sort_insert [] l.
End ArraySort.

(* ================================================================= *)
(** ** [class ReminderManager] *)

(** Result of [moveToNotes]. *)
Record MoveResult : Type := mkMoveResult {
  success : bool;
  message : string
}.

(** What the archival directory does during one [moveToNotes]: whether it
    exists, and the exception text of [mkdirSync] and of [writeFileSync]
    when they throw. *)
Record SinkEnv : Type := mkSinkEnv {
  dirExists : bool;
  mkdirError : option string;
  writeError : option string
}.

Definition priorityOrder (p : Priority) : Z :=
  match p with
  | high => 0
  | normal => 1
  | low => 2
  end.

(** [`rem_${Date.now()}_${Math.random().toString(36).substr(2, 5)}`], with
    [now] the clock reading and [rnd] the base-36 rendering of the random
    number. *)
Definition reminder_id (now : Z) (rnd : string) : string :=
  "rem_" ++ Z_to_string now ++ "_" ++ substr 2 5 rnd.

(** [fs.writeFileSync(path.join(dir, filename), content)] on the files of
    a directory: a file of that name is replaced. *)
Definition write_file (filename content : string) (dir : list (string * string))
    : list (string * string) :=
  (filename, content)
  :: filter (fun f => negb (String.eqb (fst f) filename)) dir.

Definition with_reminders (m : JSMap.t Reminder) (s : Store) : Store :=
  mkStore m (remindersFile s) (notesDir s).

Section Manager.
Context {D : DateLib}.

(** [addReminder(content, priority = 'normal')]. [now] is the reading of
    [Date.now()], [now'] that of the following [new Date()]. *)
Definition addReminder (content : string) (priority : option Priority)
    (now : Z) (rnd : string) (now' : Z) (w : WriteResult FileContent)
    (s : Store) : Store * string :=
  let priority := match priority with Some p => p | None => normal end in
  let id := reminder_id now rnd in
  let reminder := mkReminder id content priority (toISOString now') None active in
  (saveReminders w (with_reminders (JSMap.set id reminder (reminders s)) s), id).

(** The comparator handed to [sort] in [getReminders]. *)
Definition compareReminders (a b : Reminder) : JSNum :=
  let priDiff := Num (priorityOrder (priority a) - priorityOrder (priority b)) in
  if js_nonzero priDiff then priDiff
  else js_sub (getTime (created a)) (getTime (created b)).

(** [getReminders(filter = 'all')]. *)
Definition getReminders (filter : option string) (s : Store) : list Reminder :=
  let filter := match filter with Some f => f | None => "all" end in
  let rs := List.filter (fun r => Status_eqb (status r) active)
                        (JSMap.values (reminders s)) in
  let rs := if negb (String.eqb filter "all")
            then List.filter (fun r => String.eqb (Priority_string (priority r)) filter) rs
            else rs in
  Array_sort compareReminders rs.

(** [completeReminder(id)]. The record is mutated in place: it keeps its
    position in the map. *)
Definition completeReminder (id : string) (now : Z) (w : WriteResult FileContent)
    (s : Store) : Store * bool :=
  match JSMap.get id (reminders s) with
  | None => (s, false)
  | Some reminder =>
      if negb (Status_eqb (status reminder) active) then (s, false)
      else
        let reminder := set_status completed reminder in
        let reminder := set_completed (toISOString now) reminder in
        (saveReminders w (with_reminders (JSMap.set id reminder (reminders s)) s), true)
  end.

(** [deleteReminder(id)]. *)
Definition deleteReminder (id : string) (w : WriteResult FileContent)
    (s : Store) : Store * bool :=
  let (deleted, m) := JSMap.delete id (reminders s) in
  if deleted then (saveReminders w (with_reminders m s), true)
  else (with_reminders m s, false).

(** The template literal of [moveToNotes]. *)
Definition noteContent (reminder : Reminder) (additionalNote : option string)
    (now : Z) : string :=
  "# Reminder: " ++ content reminder ++ newline ++
  newline ++
  "Created: " ++ created reminder ++ newline ++
  "Priority: " ++ Priority_string (priority reminder) ++ newline ++
  match additionalNote with
  | Some note => if String.eqb note "" then "" else newline ++ "Note: " ++ note
  | None => ""
  end ++ newline ++
  newline ++
  "Moved to notes on: " ++ toISOString now ++ newline.

(** [`reminder_${new Date().toISOString().split('T')[0]}_${id}.md`]. *)
Definition note_filename (now : Z) (id : string) : string :=
  "reminder_" ++ split_head "T" (toISOString now) ++ "_" ++ id ++ ".md".

(** [moveToNotes(id, additionalNote?)]. [now] is the clock reading inside
    the note, [now'] the one inside the file name. The body of the [try]
    stops at the first exception; the record is touched only after the
    note has been written. *)
Definition moveToNotes (id : string) (additionalNote : option string)
    (now : Z) (sink : SinkEnv) (now' : Z) (w : WriteResult FileContent)
    (s : Store) : Store * MoveResult :=
  match JSMap.get id (reminders s) with
  | None => (s, mkMoveResult false "Reminder not found or already processed")
  | Some reminder =>
      if negb (Status_eqb (status reminder) active)
      then (s, mkMoveResult false "Reminder not found or already processed")
      else
        let note := noteContent reminder additionalNote now in
        match (if dirExists sink then None else mkdirError sink) with
        | Some e => (s, mkMoveResult false ("Error moving to notes: " ++ e))
        | None =>
            let filename := note_filename now' id in
            match writeError sink with
            | Some e => (s, mkMoveResult false ("Error moving to notes: " ++ e))
            | None =>
                let reminder := set_status moved reminder in
                let s := mkStore (JSMap.set id reminder (reminders s))
                                 (remindersFile s)
                                 (write_file filename note (notesDir s)) in
                (saveReminders w s, mkMoveResult true ("Moved to notes: " ++ filename))
            end
        end
  end.

(** One turn of the [for ... of this.reminders] loop of
    [clearOldReminders]. *)
Definition clear_step (cutoff : Z) (acc : JSMap.t Reminder * Z)
    (entry : string * Reminder) : JSMap.t Reminder * Z :=
  let (m, count) := acc in
  let (id, reminder) := entry in
  if (negb (Status_eqb (status reminder) active)
      && js_lt (getTime (created reminder)) (Num cutoff))%bool
  then (JSMap.remove id m, count + 1)
  else (m, count).

(** [clearOldReminders(days = 7)]. Deleting the entry being visited does
    not disturb the iteration of a [Map], so the loop visits the entries
    the map had on entry. *)
Definition clearOldReminders (days : option Z) (now : Z)
    (w : WriteResult FileContent) (s : Store) : Store * Z :=
  let days := match days with Some d => d | None => 7 end in
  let cutoff := now - days * 24 * 60 * 60 * 1000 in
  let (m, count) := fold_left (clear_step cutoff) (reminders s) (reminders s, 0) in
  if 0 <? count then (saveReminders w (with_reminders m s), count)
  else (with_reminders m s, count).

(** A call of one of the six operations together with everything the
    environment contributes to it. *)
Inductive Call : Type :=
| CallAdd (content : string) (priority : option Priority)
          (now : Z) (rnd : string) (now' : Z) (w : WriteResult FileContent)
| CallList (filter : option string)
| CallComplete (id : string) (now : Z) (w : WriteResult FileContent)
| CallDelete (id : string) (w : WriteResult FileContent)
| CallMove (id : string) (additionalNote : option string)
           (now : Z) (sink : SinkEnv) (now' : Z) (w : WriteResult FileContent)
| CallPurge (days : option Z) (now : Z) (w : WriteResult FileContent).

Definition exec (c : Call) (s : Store) : Store :=
  match c with
  | CallAdd content priority now rnd now' w =>
      fst (addReminder content priority now rnd now' w s)
  | CallList _ => s
  | CallComplete id now w => fst (completeReminder id now w s)
  | CallDelete id w => fst (deleteReminder id w s)
  | CallMove id note now sink now' w => fst (moveToNotes id note now sink now' w s)
  | CallPurge days now w => fst (clearOldReminders days now w s)
  end.

Definition run (calls : list Call) (s : Store) : Store :=
  fold_left (fun s c => exec c s) calls s.
End Manager.

(* ================================================================= *)
(** ** The request handlers *)

Definition dquote : string := String (ascii_of_nat 34) EmptyString.

(** [HELP_DOCUMENTATION]: the pieces of the template literal between its
    double quotes. *)
Definition HELP_DOCUMENTATION : string :=
  String.concat dquote
    ["
# MCP Reminders Server

A simple reminder system for Claude - like ";
     "Alexa, remind me...";
     " but for AI.
Leave notes for yourself across sessions, check them when you start, act on them or save them.

## Available Functions:

### remind_me(reminder, priority?)
Add a reminder to the queue.
- reminder: What to remember
- priority: ";
     "high";
     ", ";
     "normal";
     ", ";
     "low";
     " (default: ";
     "normal";
     ")
Returns: Reminder ID

### check_reminders(filter?)
Check your reminders.
- filter: Optional - ";
     "all";
     ", ";
     "high";
     ", ";
     "normal";
     ", ";
     "low";
     " (default: ";
     "all";
     ")
Returns: List of reminders sorted by priority and time

### complete_reminder(id)
Mark a reminder as completed/handled.
- id: Reminder ID
Returns: Confirmation

### delete_reminder(id)
Delete a reminder without completing it.
- id: Reminder ID
Returns: Confirmation

### move_to_notes(id, note?)
Move a reminder to permanent notes (Obsidian).
- id: Reminder ID
- note: Optional additional note
Returns: Confirmation

### clear_old_reminders(days?)
Clear reminders older than N days.
- days: Number of days (default: 7)
Returns: Number cleared

### help()
Show this documentation.

## Usage Pattern:
1. Start session: check_reminders()
2. See what needs attention
3. Work on items, then complete_reminder(id)
4. Important items: move_to_notes(id)
5. Clean up: clear_old_reminders()

## Examples:
- remind_me(";
     "Test the new contemplation loop integration";
     ", ";
     "high";
     ")
- remind_me(";
     "Look into why AppleScript restart lost context";
     ")
- check_reminders(";
     "high";
     ")
- complete_reminder(";
     "rem_12345";
     ")
"].

(** The last line of the text of [check_reminders], as the source file
    spells it. *)
Definition PROTOCOL_FOOTER : string :=
  "ðŸ“‹ Protocol Reminder: Read prompt â†’ Make plan â†’ Check Master Protocol Index â†’ Follow protocols".

(** An entry of the list returned for [ListToolsRequestSchema]: name,
    description, the properties of the input schema and the required
    ones. *)
Record Tool : Type := mkTool {
  tool_name : string;
  tool_description : string;
  tool_properties : list string;
  tool_required : list string
}.

Definition tools : list Tool :=
  [mkTool "remind_me" "Add a reminder" ["reminder"; "priority"] ["reminder"];
   mkTool "check_reminders" "Check your reminders" ["filter"] [];
   mkTool "complete_reminder" "Mark a reminder as completed" ["id"] ["id"];
   mkTool "delete_reminder" "Delete a reminder" ["id"] ["id"];
   mkTool "move_to_notes" "Move reminder to permanent notes" ["id"; "note"] ["id"];
   mkTool "clear_old_reminders" "Clear old completed/moved reminders" ["days"] [];
   mkTool "help" "Get help on using reminders" [] []].

(** [request.params.arguments] at the types the handler casts it to. A
    request may come without any arguments object. *)
Record Args : Type := mkArgs {
  arg_reminder : string;
  arg_priority : option Priority;
  arg_filter : option string;
  arg_id : string;
  arg_note : option string;
  arg_days : option Z
}.

(** What the environment contributes to one request: two clock readings,
    the random string, the archival directory, the outcome of the write
    of the reminders file, and the message of the [TypeError] raised when
    a property is read off a missing arguments object. *)
Record Env : Type := mkEnv {
  clock : Z;
  clock' : Z;
  random36 : string;
  archive : SinkEnv;
  disk : WriteResult FileContent;
  type_error : string
}.

(** [s.toUpperCase()] on the priority strings. *)
Definition Priority_upper (p : Priority) : string :=
  match p with
  | high => "HIGH"
  | normal => "NORMAL"
  | low => "LOW"
  end.

(** [l.join(sep)]. *)
Fixpoint join (sep : string) (l : list string) : string :=
  match l with
  | [] => ""
  | [x] => x
  | x :: rest => x ++ sep ++ join sep rest
  end.

(** One entry of the text of [check_reminders]. *)
Definition format_reminder (r : Reminder) : string :=
  "[" ++ Priority_upper (priority r) ++ "] " ++ id r ++ ": " ++ content r
  ++ newline ++ "  Created: " ++ created r.

Section Dispatcher.
Context {D : DateLib}.

(** The text a request without arguments gets from the [catch]. *)
Definition missing_arguments (e : Env) : string := "Error: " ++ type_error e.

(** The [CallToolRequestSchema] handler: the store after the request and
    the text of the reply. An exception inside the [switch] is caught and
    answered with its message. *)
Definition handle (name : string) (args : option Args) (e : Env) (s : Store)
    : Store * string :=
  if String.eqb name "remind_me" then
    match args with
    | None => (s, missing_arguments e)
    | Some a =>
        let (s', id) := addReminder (arg_reminder a) (arg_priority a)
                          (clock e) (random36 e) (clock' e) (disk e) s in
        (s', "Reminder added: " ++ id)
    end
  else if String.eqb name "check_reminders" then
    match args with
    | None => (s, missing_arguments e)
    | Some a =>
        let items := getReminders (arg_filter a) s in
        match items with
        | [] => (s, "No active reminders.")
        | _ :: _ =>
            let formatted := join (newline ++ newline) (map format_reminder items) in
            (s, "Active reminders:" ++ newline ++ newline ++ formatted
                ++ newline ++ newline ++ PROTOCOL_FOOTER)
        end
    end
  else if String.eqb name "complete_reminder" then
    match args with
    | None => (s, missing_arguments e)
    | Some a =>
        let (s', success) := completeReminder (arg_id a) (clock e) (disk e) s in
        (s', if success
             then "Reminder " ++ arg_id a ++ " marked as completed."
             else "Reminder " ++ arg_id a ++ " not found.")
    end
  else if String.eqb name "delete_reminder" then
    match args with
    | None => (s, missing_arguments e)
    | Some a =>
        let (s', success) := deleteReminder (arg_id a) (disk e) s in
        (s', if success
             then "Reminder " ++ arg_id a ++ " deleted."
             else "Reminder " ++ arg_id a ++ " not found.")
    end
  else if String.eqb name "move_to_notes" then
    match args with
    | None => (s, missing_arguments e)
    | Some a =>
        let (s', result) := moveToNotes (arg_id a) (arg_note a) (clock e)
                              (archive e) (clock' e) (disk e) s in
        (s', message result)
    end
  else if String.eqb name "clear_old_reminders" then
    match args with
    | None => (s, missing_arguments e)
    | Some a =>
        let (s', count) := clearOldReminders (arg_days a) (clock e) (disk e) s in
        (s', "Cleared " ++ Z_to_string count ++ " old reminders.")
    end
  else if String.eqb name "help" then (s, HELP_DOCUMENTATION)
  else (s, "Error: " ++ "Unknown tool: " ++ name).

(** [new ReminderManager()]: the map is whatever [loadReminders] finds in
    the file. *)
Definition ReminderManager_new (file : option FileContent)
    (notes : list (string * string)) : option Store :=
  match loadReminders file with
  | Some m => Some (mkStore m file notes)
  | None => None
  end.
End Dispatcher.

(* ================================================================= *)
(** ** A reference [DateLib]: UTC ISO-8601 with milliseconds *)

Module ISO8601.

Definition msPerDay : Z := 86400000.

(** Proleptic Gregorian date of a day count from 1970-01-01. *)
Definition civil_from_days (days : Z) : Z * Z * Z :=
  let z := days + 719468 in
  let era := z / 146097 in
  let doe := z mod 146097 in
  let yoe := (doe - doe / 1460 + doe / 36524 - doe / 146096) / 365 in
  let doy := doe - (365 * yoe + yoe / 4 - yoe / 100) in
  let mp := (5 * doy + 2) / 153 in
  let d := doy - (153 * mp + 2) / 5 + 1 in
  let m := if mp <? 10 then mp + 3 else mp - 9 in
  let y := yoe + era * 400 + (if m <=? 2 then 1 else 0) in
  (y, m, d).

Definition days_from_civil (y m d : Z) : Z :=
  let y := y - (if m <=? 2 then 1 else 0) in
  let era := y / 400 in
  let yoe := y mod 400 in
  let doy := (153 * (if 2 <? m then m - 3 else m + 9) + 2) / 5 + d - 1 in
  let doe := yoe * 365 + yoe / 4 - yoe / 100 + doy in
  era * 146097 + doe - 719468.

Fixpoint zeros (n : nat) : string :=
  match n with
  | O => ""
  | S n' => "0" ++ zeros n'
  end.

(** Decimal rendering of [n >= 0], left-padded with zeros to [width]. *)
Definition pad (width : nat) (n : Z) : string :=
  let s := Z_to_string n in
  zeros (width - String.length s) ++ s.

Definition year_string (y : Z) : string :=
  if (0 <=? y) && (y <=? 9999) then pad 4 y
  else if y <? 0 then "-" ++ pad 6 (- y)
  else "+" ++ pad 6 y.

(** [new Date(t).toISOString()]. *)
Definition format (t : Z) : string :=
  let '(y, m, d) := civil_from_days (t / msPerDay) in
  let r := t mod msPerDay in
  year_string y ++ "-" ++ pad 2 m ++ "-" ++ pad 2 d ++ "T" ++
  pad 2 (r / 3600000) ++ ":" ++ pad 2 (r / 60000 mod 60) ++ ":" ++
  pad 2 (r / 1000 mod 60) ++ "." ++ pad 3 (r mod 1000) ++ "Z".

Definition field (start len : nat) (s : string) : Z :=
  match NilEmpty.uint_of_string (substring start len s) with
  | Some u => Z.of_uint u
  | None => 0
  end.

(** The instant denoted by the fields of a [YYYY-MM-DDTHH:mm:ss.sssZ]
    string. *)
Definition instant (s : string) : Z :=
  days_from_civil (field 0 4 s) (field 5 2 s) (field 8 2 s) * msPerDay
  + field 11 2 s * 3600000 + field 14 2 s * 60000 + field 17 2 s * 1000
  + field 20 3 s.

(** [new Date(s).getTime()], restricted to the strings that [format]
    prints with a four-digit year; every other string is taken as invalid. *)
Definition parse (s : string) : JSNum :=
  let t := instant s in
  if ((String.length s =? 24)%nat && String.eqb (format t) s)%bool then Num t else NaN.

End ISO8601.

#[export] Instance ISO8601_DateLib : DateLib :=
  {| toISOString := ISO8601.format; getTime := ISO8601.parse |}.

(* ================================================================= *)
(** ** A worked scenario *)

(** The store of a process started without a reminders file. *)
Definition empty_store : Store := mkStore (JSMap.empty Reminder) None [].

(** 2023-11-14T22:13:20.000Z. *)
Definition t0 : Z := 1700000000000.

(** add("A", high), add("B"), add("C", high), one second apart. *)
Definition demo_calls : list Call :=
  [CallAdd "A" (Some high) t0 "0.k3v9x2a7" t0 Written;
   CallAdd "B" None (t0 + 1000) "0.p0q8r5s1" (t0 + 1000) Written;
   CallAdd "C" (Some high) (t0 + 2000) "0.z7y6x5w4" (t0 + 2000) Written].

Definition demo_store : Store := run demo_calls empty_store.

(** The id of "B". *)
Definition demo_key : string := reminder_id (t0 + 1000) "0.p0q8r5s1".

(** The scenario continued: complete "B", delete it, purge. *)
Definition demo_followup : list Call :=
  [CallComplete demo_key (t0 + 3000) Written;
   CallDelete demo_key Written;
   CallPurge (Some 0) (t0 + 4000) Written].

(** The scenario after "B" has been completed. *)
Definition demo_completed : Store :=
  run [CallComplete demo_key (t0 + 3000) Written] demo_store.

(** A reminder added and completed within the millisecond [t0]. *)
Definition instant_key : string := reminder_id t0 "0.k3v9x2a7".

Definition instant_store : Store :=
  run [CallAdd "A" None t0 "0.k3v9x2a7" t0 Written;
       CallComplete instant_key t0 Written] empty_store.

(** A further [addReminder] in that millisecond for which [Math.random]
    yields the same digits: it generates [instant_key] again. *)
Definition colliding_add : Call :=
  CallAdd "B" None t0 "0.k3v9x2a7" (t0 + 1) Written.

(** The same reminder text added twice, one second apart. *)
Definition twice_store : Store :=
  run [CallAdd "A" (Some high) t0 "0.k3v9x2a7" t0 Written;
       CallAdd "A" (Some high) (t0 + 1000) "0.p0q8r5s1" (t0 + 1000) Written]
      empty_store.

(** An archival directory that exists and accepts the note. *)
Definition working_sink : SinkEnv := mkSinkEnv true None None.

(* ================================================================= *)
(** ** Vocabulary of the properties *)





(** Every entry is stored under the [id] of its record, and no key occurs
    twice: what [addReminder] establishes and every operation keeps. *)
Definition keyed_by_id (m : JSMap.t Reminder) : Prop :=
  JSMap.ok m /\ forall k r, In (k, r) m -> id r = k.

(** Outcome of the archival handoff inside the [try] of [moveToNotes]:
    the text of the first exception, if any. *)
Definition handoff_error (sink : SinkEnv) : option string :=
  if dirExists sink then writeError sink
  else match mkdirError sink with
       | Some e => Some e
       | None => writeError sink
       end.

Section Vocabulary.
Context {D : DateLib}.

(** The instant a record was created, as [getReminders] and
    [clearOldReminders] read it. *)
Definition created_time (r : Reminder) : JSNum := getTime (created r).

(** Every active record carries a [created] string that denotes an
    instant. *)
Definition dated (m : JSMap.t Reminder) : Prop :=
  forall r, In r (JSMap.values m) -> status r = active ->
            exists t, created_time r = Num t.



(** What [clearOldReminders] removes for a given cutoff. *)
Definition purgeable (cutoff : Z) (r : Reminder) : bool :=
  (negb (Status_eqb (status r) active) && js_lt (created_time r) (Num cutoff))%bool.

(** How a stored record can differ from an earlier version of itself:
    not at all, or by having been completed, or by having been moved. *)
Definition evolves (r r' : Reminder) : Prop :=
  id r' = id r /\ content r' = content r /\ priority r' = priority r
  /\ created r' = created r
  /\ ((status r' = status r /\ completed_at r' = completed_at r)
      \/ (status r = active /\ status r' = completed
          /\ exists t, completed_at r' = Some (toISOString t))
      \/ (status r = active /\ status r' = moved
          /\ completed_at r' = completed_at r)).

(** A record as [addReminder] creates it. *)
Definition newborn (r : Reminder) : Prop :=
  status r = active /\ completed_at r = None.

(** The ids that the [addReminder] calls of a trace generate are pairwise
    distinct and distinct from the ids in [used]. *)
Fixpoint fresh_adds (used : list string) (calls : list Call) : Prop :=
  match calls with
  | [] => True
  | CallAdd _ _ now rnd _ _ :: rest =>
      ~ In (reminder_id now rnd) used
      /\ fresh_adds (reminder_id now rnd :: used) rest
  | _ :: rest => fresh_adds used rest
  end.

(** The call that can make the record [r] stored under [k] disappear:
    [deleteReminder] on [k], or a purge when [r] is not active. *)
Definition removal_call (c : Call) (k : string) (r : Reminder) : Prop :=
  match c with
  | CallDelete key _ => key = k
  | CallPurge _ _ _ => status r <> active
  | _ => False
  end.

(** The call is an [addReminder] that generates the id [k]. *)
Definition is_add_of (c : Call) (k : string) : Prop :=
  match c with
  | CallAdd _ _ now rnd _ _ => k = reminder_id now rnd
  | _ => False
  end.

(** The call that turns the record [r] stored under [k] into the
    different record [r']: a [completeReminder] on [k], which completes it
    at the instant of the call, or a [moveToNotes] on [k] whose handoff
    went through. *)
Definition caused_by (c : Call) (k : string) (r r' : Reminder) : Prop :=
  match c with
  | CallComplete key now _ =>
      key = k /\ status r = active /\ status r' = completed
      /\ completed_at r' = Some (toISOString now)
  | CallMove key _ _ sink _ _ =>
      key = k /\ status r = active /\ status r' = moved
      /\ completed_at r' = completed_at r /\ handoff_error sink = None
  | _ => False
  end.

(** The ids in use once the call has run. *)
Definition used_after (used : list string) (c : Call) : list string :=
  match c with
  | CallAdd _ _ now rnd _ _ => reminder_id now rnd :: used
  | _ => used
  end.

(** Records of the given content and priority that are active. *)
Definition matches (c : string) (p : Priority) (r : Reminder) : bool :=
  (String.eqb (content r) c && Priority_eqb (priority r) p
   && Status_eqb (status r) active)%bool.
End Vocabulary.

(** *** Vocabulary of the properties of persistence, listings and
    requests *)

(** The call with the outcome of its write replaced by [w]. *)
Definition set_write (w : WriteResult FileContent) (c : Call) : Call :=
  match c with
  | CallAdd content priority now rnd now' _ => CallAdd content priority now rnd now' w
  | CallList filter => CallList filter
  | CallComplete key now _ => CallComplete key now w
  | CallDelete key _ => CallDelete key w
  | CallMove key note now sink now' _ => CallMove key note now sink now' w
  | CallPurge days now _ => CallPurge days now w
  end.

(** The environment with the outcome of the write replaced by [w]. *)
Definition set_disk (w : WriteResult FileContent) (e : Env) : Env :=
  mkEnv (clock e) (clock' e) (random36 e) (archive e) w (type_error e).

(** The file holds exactly what [saveReminders] writes for the map in
    memory. *)
Definition synced (s : Store) : Prop :=
  remindersFile s = Some (Json (persisted_form (reminders s))).

(** A process started on the file finds exactly the map in memory. *)
Definition recoverable (s : Store) : Prop :=
  loadReminders (remindersFile s) = Some (reminders s).

(** No key is an array index. *)
Definition plain_keys (m : JSMap.t Reminder) : Prop :=
  forall k, In k (JSMap.keys m) -> array_index k = None.

(** Records whose id is not [key]. *)
Definition other_id (key : string) (r : Reminder) : bool :=
  negb (String.eqb (id r) key).

(** Records of priority [p]. *)
Definition of_priority (p : Priority) (r : Reminder) : bool :=
  Priority_eqb (priority r) p.

(** The reply of the request handler to a name its [switch] has no case
    for. *)
Definition unknown_tool (name : string) : string :=
  "Error: " ++ "Unknown tool: " ++ name.

(** The second filter of [getReminders], for any filter argument. *)
Definition passes (filter : option string) (r : Reminder) : bool :=
  let filter := match filter with Some f => f | None => "all" end in
  if String.eqb filter "all" then true
  else String.eqb (Priority_string (priority r)) filter.

Definition is_active (r : Reminder) : bool := Status_eqb (status r) active.

(* ================================================================= *)
(** * Properties *)


Lemma Status_eqb_eq (a b : Status) : Status_eqb a b = true <-> a = b.
Proof. destruct a, b; simpl; split; intro H; congruence. Qed.

Lemma Status_eqb_refl (a : Status) : Status_eqb a a = true.
Proof. now destruct a. Qed.

Lemma Priority_eqb_refl (a : Priority) : Priority_eqb a a = true.
Proof. now destruct a. Qed.

Lemma Priority_string_inj (a b : Priority) :
  Priority_string a = Priority_string b -> a = b.
Proof. destruct a, b; simpl; intro H; congruence. Qed.

Lemma Priority_string_eqb (a b : Priority) :
  String.eqb (Priority_string a) (Priority_string b) = Priority_eqb a b.
Proof. now destruct a, b. Qed.

Lemma Priority_string_not_all (p : Priority) :
  String.eqb (Priority_string p) "all" = false.
Proof. now destruct p. Qed.

Lemma Reminder_eq_dec (a b : Reminder) : {a = b} + {a <> b}.
Proof. repeat decide equality. Qed.

Lemma with_reminders_same (s : Store) : with_reminders (reminders s) s = s.
Proof. now destruct s. Qed.

(** ** Facts about [JSMap] *)

Module JSMapFacts.
Section Facts.
Variable V : Type.
Implicit Types (m : JSMap.t V) (k : string) (v : V).

Lemma get_set_same k v m : JSMap.get k (JSMap.set k v m) = Some v.
Proof.
  induction m as [|[k' v'] m IH]; simpl.
  - now rewrite String.eqb_refl.
  - destruct (String.eqb_spec k' k) as [->|Hne]; simpl.
    + now rewrite String.eqb_refl.
    + destruct (String.eqb_spec k' k); [contradiction|exact IH].
Qed.

Lemma get_set_other k k' v m :
  k' <> k -> JSMap.get k' (JSMap.set k v m) = JSMap.get k' m.
Proof.
  intros Hne. induction m as [|[k1 v1] m IH]; simpl.
  - destruct (String.eqb_spec k k'); [congruence|reflexivity].
  - destruct (String.eqb_spec k1 k) as [->|Hk]; simpl.
    + destruct (String.eqb_spec k k'); [congruence|reflexivity].
    + now rewrite IH.
Qed.

Lemma get_None_keys k m : JSMap.get k m = None <-> ~ In k (JSMap.keys m).
Proof.
  induction m as [|[k' v'] m IH]; simpl.
  - tauto.
  - destruct (String.eqb_spec k' k) as [->|Hne].
    + split; [discriminate|tauto].
    + rewrite IH. tauto.
Qed.

Lemma get_Some_In k v m : JSMap.get k m = Some v -> In (k, v) m.
Proof.
  induction m as [|[k' v'] m IH]; simpl; [discriminate|].
  destruct (String.eqb_spec k' k) as [->|Hne].
  - intros [= ->]. now left.
  - intros H. right. auto.
Qed.

Lemma In_get k v m : JSMap.ok m -> In (k, v) m -> JSMap.get k m = Some v.
Proof.
  unfold JSMap.ok. induction m as [|[k' v'] m IH]; simpl; [tauto|].
  intros Hnd [Heq|Hin].
  - injection Heq as -> ->. now rewrite String.eqb_refl.
  - inversion Hnd as [|? ? Hnotin Hnd']; subst.
    destruct (String.eqb_spec k' k) as [->|Hne].
    + exfalso. apply Hnotin. change (In (fst (k, v)) (map fst m)). now apply in_map.
    + auto.
Qed.

Lemma has_true k m : JSMap.has k m = true <-> In k (JSMap.keys m).
Proof.
  unfold JSMap.has. pose proof (get_None_keys k m) as H.
  destruct (JSMap.get k m); split; intro H'; try reflexivity; try discriminate.
  - destruct (in_dec string_dec k (JSMap.keys m)) as [Hin|Hn]; [exact Hin|].
    apply H in Hn. discriminate.
  - exfalso. now apply H.
Qed.

Lemma set_present k v m :
  In k (JSMap.keys m) -> JSMap.keys (JSMap.set k v m) = JSMap.keys m.
Proof.
  induction m as [|[k' v'] m IH]; simpl; [tauto|].
  intros Hin. destruct (String.eqb_spec k' k) as [->|Hne]; simpl.
  - reflexivity.
  - f_equal. apply IH. destruct Hin; [contradiction|assumption].
Qed.

Lemma set_absent k v m :
  ~ In k (JSMap.keys m) -> JSMap.set k v m = (m ++ [(k, v)])%list.
Proof.
  induction m as [|[k' v'] m IH]; simpl; [reflexivity|].
  intros Hn. destruct (String.eqb_spec k' k) as [->|Hne].
  - exfalso. tauto.
  - f_equal. apply IH. tauto.
Qed.

Lemma ok_set k v m : JSMap.ok m -> JSMap.ok (JSMap.set k v m).
Proof.
  unfold JSMap.ok. intros Hnd.
  destruct (in_dec string_dec k (JSMap.keys m)) as [Hin|Hn].
  - now rewrite set_present.
  - rewrite set_absent by assumption. unfold JSMap.keys in *.
    rewrite map_app. simpl. apply NoDup_app; [assumption|repeat constructor; simpl; tauto|].
    intros x Hx [<-|[]]. contradiction.
Qed.

Lemma remove_absent k m : ~ In k (JSMap.keys m) -> JSMap.remove k m = m.
Proof.
  induction m as [|[k' v'] m IH]; simpl; [reflexivity|].
  intros Hn. destruct (String.eqb_spec k' k) as [->|Hne].
  - exfalso. tauto.
  - f_equal. apply IH. tauto.
Qed.

Lemma get_remove_other k k' m :
  k' <> k -> JSMap.get k' (JSMap.remove k m) = JSMap.get k' m.
Proof.
  intros Hne. induction m as [|[k1 v1] m IH]; simpl; [reflexivity|].
  destruct (String.eqb_spec k1 k) as [->|Hk]; simpl.
  - destruct (String.eqb_spec k k'); [congruence|reflexivity].
  - now rewrite IH.
Qed.

Lemma remove_incl k m x : In x (JSMap.remove k m) -> In x m.
Proof.
  induction m as [|[k1 v1] m IH]; simpl; [tauto|].
  destruct (String.eqb_spec k1 k); simpl; tauto.
Qed.

Lemma keys_remove_incl k m x :
  In x (JSMap.keys (JSMap.remove k m)) -> In x (JSMap.keys m).
Proof.
  induction m as [|[k1 v1] m IH]; simpl; [tauto|].
  destruct (String.eqb_spec k1 k); simpl; tauto.
Qed.

Lemma ok_remove k m : JSMap.ok m -> JSMap.ok (JSMap.remove k m).
Proof.
  unfold JSMap.ok. induction m as [|[k1 v1] m IH]; simpl; [trivial|].
  intros Hnd. inversion Hnd as [|? ? Hnotin Hnd']; subst.
  destruct (String.eqb_spec k1 k); simpl; [assumption|].
  constructor; [|auto]. intros Hin. apply Hnotin. eapply keys_remove_incl; eassumption.
Qed.

Lemma get_remove_same k m : JSMap.ok m -> JSMap.get k (JSMap.remove k m) = None.
Proof.
  unfold JSMap.ok. induction m as [|[k1 v1] m IH]; simpl; [trivial|].
  intros Hnd. inversion Hnd as [|? ? Hnotin Hnd']; subst.
  destruct (String.eqb_spec k1 k) as [->|Hne]; simpl.
  - now apply get_None_keys.
  - destruct (String.eqb_spec k1 k); [contradiction|auto].
Qed.

(** With unique keys, [remove] is a filter on the key. *)
Lemma remove_filter k m :
  JSMap.ok m -> JSMap.remove k m = filter (fun e => negb (String.eqb (fst e) k)) m.
Proof.
  unfold JSMap.ok. induction m as [|[k1 v1] m IH]; simpl; [trivial|].
  intros Hnd. inversion Hnd as [|? ? Hnotin Hnd']; subst.
  destruct (String.eqb_spec k1 k) as [->|Hne]; simpl.
  - rewrite <- IH by assumption. symmetry. now apply remove_absent.
  - f_equal. auto.
Qed.

Lemma of_entries_acc (es acc : JSMap.t V) :
  NoDup (JSMap.keys acc ++ JSMap.keys es)%list ->
  fold_left (fun m e => JSMap.set (fst e) (snd e) m) es acc = (acc ++ es)%list.
Proof.
  revert acc. induction es as [|[k v] es IH]; intros acc Hnd; simpl.
  - now rewrite app_nil_r.
  - rewrite set_absent.
    + rewrite IH.
      * now rewrite <- app_assoc.
      * unfold JSMap.keys in *. rewrite map_app. simpl in *.
        rewrite <- app_assoc. exact Hnd.
    + intros Hin. apply NoDup_remove_2 in Hnd. apply Hnd.
      apply in_or_app. now left.
Qed.

(** [new Map(entries)] on entries with distinct keys keeps them as they
    are. *)
Lemma of_entries_ok (es : JSMap.t V) : JSMap.ok es -> JSMap.of_entries es = es.
Proof. intros H. unfold JSMap.of_entries. now rewrite of_entries_acc. Qed.
Lemma In_set k v k' v' m :
  JSMap.ok m -> In (k', v') (JSMap.set k v m) ->
  (k' = k /\ v' = v) \/ (k' <> k /\ In (k', v') m).
Proof.
  intros Hok Hin. apply In_get in Hin; [|now apply ok_set].
  destruct (string_dec k' k) as [->|Hne].
  - rewrite get_set_same in Hin. injection Hin as <-. now left.
  - rewrite get_set_other in Hin by assumption. right. split; [assumption|].
    now apply get_Some_In.
Qed.

Lemma get_filter (P : string * V -> bool) k m :
  JSMap.ok m ->
  JSMap.get k (filter P m)
  = match JSMap.get k m with
    | Some v => if P (k, v) then Some v else None
    | None => None
    end.
Proof.
  unfold JSMap.ok. induction m as [|[k1 v1] m IH]; simpl; [reflexivity|].
  intros Hnd. inversion Hnd as [|? ? Hnotin Hnd']; subst.
  destruct (String.eqb_spec k1 k) as [->|Hne].
  - destruct (P (k, v1)); simpl.
    + now rewrite String.eqb_refl.
    + rewrite IH by assumption.
      apply get_None_keys in Hnotin. now rewrite Hnotin.
  - destruct (P (k1, v1)); simpl; [|now apply IH].
    destruct (String.eqb_spec k1 k); [contradiction|now apply IH].
Qed.

Lemma remove_middle k v (kept es : JSMap.t V) :
  ~ In k (JSMap.keys kept) ->
  JSMap.remove k (kept ++ (k, v) :: es)%list = (kept ++ es)%list.
Proof.
  induction kept as [|[k1 v1] kept IH]; simpl; intros Hn.
  - now rewrite String.eqb_refl.
  - destruct (String.eqb_spec k1 k) as [->|Hne]; [exfalso; tauto|].
    f_equal. apply IH. tauto.
Qed.

Lemma In_values_get m v :
  In v (JSMap.values m) -> exists k, In (k, v) m.
Proof.
  unfold JSMap.values. intros Hin. apply in_map_iff in Hin.
  destruct Hin as ([k v0] & <- & Hin). now exists k.
Qed.

Lemma get_In_values k v m : JSMap.get k m = Some v -> In v (JSMap.values m).
Proof.
  intros H. apply get_Some_In in H. unfold JSMap.values.
  change v with (snd (k, v)). now apply in_map.
Qed.
Lemma ok_filter (P : string * V -> bool) m : JSMap.ok m -> JSMap.ok (filter P m).
Proof.
  unfold JSMap.ok, JSMap.keys. induction m as [|e m IH]; simpl; [trivial|].
  intros Hnd. inversion Hnd as [|? ? Hnotin Hnd']; subst.
  destruct (P e); simpl; [|auto]. constructor; [|auto].
  intros Hin. apply Hnotin. apply in_map_iff in Hin.
  destruct Hin as (x & Hx & Hin). apply filter_In in Hin.
  rewrite <- Hx. apply in_map. tauto.
Qed.
End Facts.
End JSMapFacts.

(** ** Facts about [Array_sort] *)

Module SortFacts.
Section Facts.
Variable A : Type.
Variable comparefn : A -> A -> JSNum.

Local Abbreviation below := (sorts_before comparefn).

Lemma sort_insert_perm x l : Permutation (sort_insert comparefn x l) (x :: l).
Proof.
  induction l as [|y l IH]; simpl; [reflexivity|].
  destruct (SortCompare comparefn x y <=? 0); [reflexivity|].
  rewrite IH. apply perm_swap.
Qed.

Lemma Array_sort_perm l : Permutation (Array_sort comparefn l) l.
Proof.
  induction l as [|x l IH]; simpl; [reflexivity|].
  rewrite sort_insert_perm. now constructor.
Qed.

Lemma Array_sort_incl l x : In x (Array_sort comparefn l) -> In x l.
Proof. apply Permutation_in, Array_sort_perm. Qed.

Lemma Array_sort_keeps l x : In x l -> In x (Array_sort comparefn l).
Proof. apply Permutation_in. symmetry. apply Array_sort_perm. Qed.



Lemma sort_insert_sorted x l :
  (forall y, In y l -> ~ below x y -> below y x) ->
  (forall y z, In y l -> In z l -> below x y -> below y z -> below x z) ->
  StronglySorted below l -> StronglySorted below (sort_insert comparefn x l).
Proof.
  induction l as [|y l IH]; intros Htot Htr Hs; simpl.
  - repeat constructor.
  - inversion Hs as [|? ? Hs' Hall]; subst.
    rewrite Forall_forall in Hall.
    destruct (Z.leb_spec (SortCompare comparefn x y) 0) as [Hle|Hgt].
    + constructor; [assumption|]. rewrite Forall_forall. intros z [<-|Hz].
      * exact Hle.
      * apply Htr with y; simpl; auto.
    + constructor.
      * apply IH.
        -- intros z Hz. apply Htot. now right.
        -- intros z1 z2 H1 H2. apply Htr; now right.
        -- assumption.
      * rewrite Forall_forall. intros z Hz.
        apply (Permutation_in _ (sort_insert_perm x l)) in Hz.
        destruct Hz as [<-|Hz]; [|auto].
        apply Htot; [now left|]. unfold sorts_before. lia.
Qed.

(** On a list where the comparator is total and transitive, the result is
    sorted. *)
Lemma Array_sort_sorted l :
  (forall x y, In x l -> In y l -> ~ below x y -> below y x) ->
  (forall x y z, In x l -> In y l -> In z l -> below x y -> below y z -> below x z) ->
  StronglySorted below (Array_sort comparefn l).
Proof.
  induction l as [|x l IH]; intros Htot Htr; simpl.
  - constructor.
  - apply sort_insert_sorted.
    + intros y Hy. apply Array_sort_incl in Hy. apply Htot; [now left|now right].
    + intros y z Hy Hz. apply Array_sort_incl in Hy, Hz.
      apply Htr; [now left|now right|now right].
    + apply IH.
      * intros y z Hy Hz. apply Htot; now right.
      * intros y z u Hy Hz Hu. apply Htr; now right.
Qed.
End Facts.


End SortFacts.

(** ** [getReminders] *)

Section Listing.
Context {D : DateLib}.

Lemma SortCompare_dated a b ta tb :
  created_time a = Num ta -> created_time b = Num tb ->
  SortCompare compareReminders a b
  = if priorityOrder (priority a) - priorityOrder (priority b) =? 0
    then ta - tb
    else priorityOrder (priority a) - priorityOrder (priority b).
Proof.
  unfold created_time, SortCompare, compareReminders. intros Ha Hb. simpl.
  destruct (Z.eqb_spec (priorityOrder (priority a) - priorityOrder (priority b)) 0);
    simpl; [now rewrite Ha, Hb|reflexivity].
Qed.




(** C9. For a filter string that is neither all nor one of the three
    priority values, [getReminders] returns the empty list. *)
Theorem C9_unknown_filter_lists_nothing (s : Store) (filter : string) :
  filter <> "all" -> filter <> "high" -> filter <> "normal" -> filter <> "low" ->
  getReminders (Some filter) s = [].
Proof.
  intros Hall Hh Hn Hl. unfold getReminders.
  apply String.eqb_neq in Hall. rewrite Hall. simpl.
  match goal with
  | |- Array_sort _ ?l = [] => assert (E : l = []); [|now rewrite E]
  end.
  induction (List.filter (fun r => Status_eqb (status r) active)
               (JSMap.values (reminders s))) as [|r l IH]; simpl; [reflexivity|].
  assert (Hp : String.eqb (Priority_string (priority r)) filter = false).
  { apply String.eqb_neq. destruct (priority r); simpl; congruence. }
  now rewrite Hp.
Qed.
End Listing.

(** ** [completeReminder] and [deleteReminder] *)

Section CompleteDelete.
Context {D : DateLib}.

Lemma completeReminder_active key now w s r :
  JSMap.get key (reminders s) = Some r -> status r = active ->
  completeReminder key now w s
  = (saveReminders w
       (with_reminders
          (JSMap.set key
             (mkReminder (id r) (content r) (priority r) (created r)
                         (Some (toISOString now)) completed)
             (reminders s)) s),
     true).
Proof.
  intros Hget Hact. unfold completeReminder. rewrite Hget, Hact. reflexivity.
Qed.

Lemma completeReminder_refused key now w s :
  (forall r, JSMap.get key (reminders s) = Some r -> status r <> active) ->
  completeReminder key now w s = (s, false).
Proof.
  intros H. unfold completeReminder.
  destruct (JSMap.get key (reminders s)) as [r|] eqn:Hget; [|reflexivity].
  specialize (H r eq_refl). destruct (status r); simpl; congruence.
Qed.

Lemma reminders_saveReminders w s : reminders (saveReminders w s) = reminders s.
Proof. now destruct w. Qed.

Lemma notesDir_saveReminders w s : notesDir (saveReminders w s) = notesDir s.
Proof. now destruct w. Qed.

(** C4. [completeReminder] returns true exactly when the id is stored
    with an active record; it then marks that record completed at the
    current instant and leaves its id, content, priority and created, the
    other records and the order of the map untouched. Otherwise it
    returns false and changes nothing; a second call on the same id
    returns false. *)
Theorem C4_complete_only_active (s : Store) (key : string) (now : Z)
    (w : WriteResult FileContent) :
  let out := completeReminder key now w s in
  (snd out = true
   <-> exists r, JSMap.get key (reminders s) = Some r /\ status r = active)
  /\ (forall r, JSMap.get key (reminders s) = Some r -> status r = active ->
        JSMap.get key (reminders (fst out))
        = Some (mkReminder (id r) (content r) (priority r) (created r)
                           (Some (toISOString now)) completed)
        /\ (forall k, k <> key ->
              JSMap.get k (reminders (fst out)) = JSMap.get k (reminders s))
        /\ JSMap.keys (reminders (fst out)) = JSMap.keys (reminders s)
        /\ notesDir (fst out) = notesDir s)
  /\ (snd out = false -> fst out = s)
  /\ (forall now2 w2, snd (completeReminder key now2 w2 (fst out)) = false).
Proof.
  intros out. subst out.
  destruct (JSMap.get key (reminders s)) as [r|] eqn:Hget.
  - destruct (Status_eqb (status r) active) eqn:Hst.
    + apply Status_eqb_eq in Hst.
      rewrite (completeReminder_active _ now w _ Hget Hst). simpl.
      rewrite reminders_saveReminders, notesDir_saveReminders. simpl.
      split; [split; [eauto|reflexivity]|].
      split; [|split; [discriminate|]].
      * intros r0 [= <-] _. rewrite JSMapFacts.get_set_same.
        repeat split; try reflexivity.
        -- intros k Hk. now apply JSMapFacts.get_set_other.
        -- apply JSMapFacts.set_present. apply JSMapFacts.has_true.
           unfold JSMap.has. now rewrite Hget.
      * intros now2 w2. rewrite completeReminder_refused; [reflexivity|].
        simpl. rewrite reminders_saveReminders. simpl.
        rewrite JSMapFacts.get_set_same. intros r0 [= <-]. simpl. discriminate.
    + assert (Hna : status r <> active).
      { intros E. apply Status_eqb_eq in E. congruence. }
      assert (Hno : forall r0, JSMap.get key (reminders s) = Some r0 -> status r0 <> active).
      { intros r0 E. rewrite Hget in E. now injection E as <-. }
      rewrite (completeReminder_refused _ now w _ Hno). simpl.
      split; [split; [discriminate|]|].
      * intros (r0 & [= <-] & Ha). contradiction.
      * split; [|split; [reflexivity|]].
        -- intros r0 [= <-] Ha. contradiction.
        -- intros now2 w2. now rewrite completeReminder_refused.
  - assert (Hno : forall r0, JSMap.get key (reminders s) = Some r0 -> status r0 <> active).
    { intros r0 E. rewrite Hget in E. discriminate. }
    rewrite (completeReminder_refused _ now w _ Hno). simpl.
    split; [split; [discriminate|]|].
    + intros (r0 & E & _). discriminate.
    + split; [|split; [reflexivity|]].
      * intros r0 E. discriminate.
      * intros now2 w2. now rewrite completeReminder_refused.
Qed.

(** C6. [deleteReminder] removes the record stored under the id whatever
    its status and returns true; when the id is not stored it returns
    false and leaves the store as it was. *)
Theorem C6_delete_any_status (s : Store) (key : string)
    (w : WriteResult FileContent) :
  JSMap.ok (reminders s) ->
  let out := deleteReminder key w s in
  (forall r, JSMap.get key (reminders s) = Some r ->
     snd out = true
     /\ JSMap.get key (reminders (fst out)) = None
     /\ reminders (fst out)
        = filter (fun e => negb (String.eqb (fst e) key)) (reminders s)
     /\ (forall k, k <> key ->
           JSMap.get k (reminders (fst out)) = JSMap.get k (reminders s)))
  /\ (JSMap.get key (reminders s) = None -> snd out = false /\ fst out = s).
Proof.
  intros Hok out. subst out. unfold deleteReminder, JSMap.delete, JSMap.has.
  destruct (JSMap.get key (reminders s)) as [r|] eqn:Hget; simpl.
  - rewrite reminders_saveReminders. simpl. split; [|discriminate].
    intros r0 _. split; [reflexivity|]. split; [|split].
    + now apply JSMapFacts.get_remove_same.
    + now apply JSMapFacts.remove_filter.
    + intros k Hk. now apply JSMapFacts.get_remove_other.
  - split; [discriminate|]. intros _. split; [reflexivity|].
    rewrite JSMapFacts.remove_absent by now apply JSMapFacts.get_None_keys.
    apply with_reminders_same.
Qed.
End CompleteDelete.

(** ** Stores keyed by record id, and what [getReminders] contains *)

Section Keyed.
Context {D : DateLib}.

Lemma keyed_set key r m :
  keyed_by_id m -> id r = key -> keyed_by_id (JSMap.set key r m).
Proof.
  intros [Hok Hid] Hr. split; [now apply JSMapFacts.ok_set|].
  intros k r0 Hin. apply JSMapFacts.In_set in Hin; [|assumption].
  destruct Hin as [[-> ->]|[_ Hin]]; auto.
Qed.

Lemma keyed_remove key m : keyed_by_id m -> keyed_by_id (JSMap.remove key m).
Proof.
  intros [Hok Hid]. split; [now apply JSMapFacts.ok_remove|].
  intros k r Hin. apply Hid. eapply JSMapFacts.remove_incl; eassumption.
Qed.

Lemma getReminders_sound filter s r :
  In r (getReminders filter s) ->
  In r (JSMap.values (reminders s)) /\ status r = active.
Proof.
  unfold getReminders. intros Hin. apply SortFacts.Array_sort_incl in Hin.
  assert (Hact : In r (List.filter (fun r => Status_eqb (status r) active)
                         (JSMap.values (reminders s)))).
  { destruct (negb _); [|assumption]. apply filter_In in Hin. tauto. }
  apply filter_In in Hact. destruct Hact as [H1 H2].
  split; [assumption|now apply Status_eqb_eq].
Qed.

Lemma getReminders_all_complete s r :
  In r (JSMap.values (reminders s)) -> status r = active ->
  In r (getReminders None s).
Proof.
  intros Hin Hact. unfold getReminders. simpl.
  apply SortFacts.Array_sort_keeps. apply filter_In. split; [assumption|].
  now apply Status_eqb_eq.
Qed.

Lemma getReminders_priority_complete s r :
  In r (JSMap.values (reminders s)) -> status r = active ->
  In r (getReminders (Some (Priority_string (priority r))) s).
Proof.
  intros Hin Hact. unfold getReminders. rewrite Priority_string_not_all. simpl.
  apply SortFacts.Array_sort_keeps. apply filter_In. split.
  - apply filter_In. split; [assumption|now apply Status_eqb_eq].
  - apply String.eqb_refl.
Qed.

(** In a store keyed by id, a record whose stored version is not active
    is absent from every listing. *)
Lemma inactive_not_listed s key r0 filter r :
  keyed_by_id (reminders s) ->
  JSMap.get key (reminders s) = Some r0 -> status r0 <> active ->
  In r (getReminders filter s) -> id r <> key.
Proof.
  intros [Hok Hid] Hget Hst Hin Heq.
  apply getReminders_sound in Hin. destruct Hin as [Hin Hact].
  apply JSMapFacts.In_values_get in Hin. destruct Hin as [k Hin].
  pose proof (Hid _ _ Hin) as Hk. rewrite Heq in Hk. subst k.
  apply JSMapFacts.In_get in Hin; [|assumption]. congruence.
Qed.
End Keyed.

(** ** [moveToNotes] *)

Section Move.
Context {D : DateLib}.

Lemma moveToNotes_refused key note now sink now' w s :
  (forall r, JSMap.get key (reminders s) = Some r -> status r <> active) ->
  moveToNotes key note now sink now' w s
  = (s, mkMoveResult false "Reminder not found or already processed").
Proof.
  intros H. unfold moveToNotes.
  destruct (JSMap.get key (reminders s)) as [r|] eqn:Hget; [|reflexivity].
  specialize (H r eq_refl). destruct (status r); simpl; congruence.
Qed.

Lemma moveToNotes_handed_off key note now sink now' w s r :
  JSMap.get key (reminders s) = Some r -> status r = active ->
  handoff_error sink = None ->
  moveToNotes key note now sink now' w s
  = (saveReminders w
       (mkStore (JSMap.set key (set_status moved r) (reminders s))
                (remindersFile s)
                (write_file (note_filename now' key) (noteContent r note now)
                   (notesDir s))),
     mkMoveResult true ("Moved to notes: " ++ note_filename now' key)).
Proof.
  intros Hget Hact Hsink. unfold moveToNotes, handoff_error in *.
  rewrite Hget, Hact. simpl.
  destruct (dirExists sink).
  - now rewrite Hsink.
  - destruct (mkdirError sink); [discriminate|]. now rewrite Hsink.
Qed.

Lemma moveToNotes_failed key note now sink now' w s r e :
  JSMap.get key (reminders s) = Some r -> status r = active ->
  handoff_error sink = Some e ->
  moveToNotes key note now sink now' w s
  = (s, mkMoveResult false ("Error moving to notes: " ++ e)).
Proof.
  intros Hget Hact Hsink. unfold moveToNotes, handoff_error in *.
  rewrite Hget, Hact. simpl.
  destruct (dirExists sink).
  - now rewrite Hsink.
  - destruct (mkdirError sink) as [e'|]; [now injection Hsink as ->|].
    now rewrite Hsink.
Qed.

(** C2. In a store keyed by id, [moveToNotes] reports success only for
    an id stored with an active record. When the archival handoff goes
    through, the record becomes moved, the result is success with a
    message naming the generated file, the note is in the archive and the
    id is absent from every listing. When the handoff throws, the result
    is a failure carrying the exception text and the store is exactly as
    before, so the record is still active and still listed. *)
Theorem C2_move_succeeds_or_leaves_unchanged (s : Store) (key : string)
    (note : option string) (now : Z) (sink : SinkEnv) (now' : Z)
    (w : WriteResult FileContent) :
  keyed_by_id (reminders s) ->
  let out := moveToNotes key note now sink now' w s in
  (success (snd out) = true ->
   exists r, JSMap.get key (reminders s) = Some r /\ status r = active)
  /\ (forall r, JSMap.get key (reminders s) = Some r -> status r = active ->
        (handoff_error sink = None ->
           success (snd out) = true
           /\ message (snd out) = "Moved to notes: " ++ note_filename now' key
           /\ JSMap.get key (reminders (fst out)) = Some (set_status moved r)
           /\ In (note_filename now' key, noteContent r note now) (notesDir (fst out))
           /\ forall filter r', In r' (getReminders filter (fst out)) -> id r' <> key)
        /\ (forall e, handoff_error sink = Some e ->
              success (snd out) = false
              /\ message (snd out) = "Error moving to notes: " ++ e
              /\ fst out = s
              /\ JSMap.get key (reminders (fst out)) = Some r
              /\ In r (getReminders None (fst out))
              /\ In r (getReminders (Some (Priority_string (priority r))) (fst out)))).
Proof.
  intros Hkeyed out. subst out. split.
  - intros Hsucc.
    destruct (JSMap.get key (reminders s)) as [r|] eqn:Hget.
    + destruct (Status_eqb (status r) active) eqn:Hst.
      * exists r. split; [reflexivity|now apply Status_eqb_eq].
      * rewrite moveToNotes_refused in Hsucc; [discriminate|].
        intros r0 E Ha. rewrite Hget in E. injection E as <-.
        apply Status_eqb_eq in Ha. congruence.
    + rewrite moveToNotes_refused in Hsucc; [discriminate|].
      intros r0 E. rewrite Hget in E. discriminate.
  - intros r Hget Hact. split.
    + intros Hsink. rewrite (moveToNotes_handed_off _ note now _ now' w _ Hget Hact Hsink).
      simpl. rewrite reminders_saveReminders, notesDir_saveReminders. simpl.
      repeat split.
      * apply JSMapFacts.get_set_same.
      * now left.
      * intros filter r' Hin.
        eapply inactive_not_listed with (r0 := set_status moved r); [| | |exact Hin].
        -- rewrite reminders_saveReminders. simpl.
           apply keyed_set; [assumption|]. simpl.
           destruct Hkeyed as [_ Hid]. apply Hid. now apply JSMapFacts.get_Some_In.
        -- rewrite reminders_saveReminders. simpl. apply JSMapFacts.get_set_same.
        -- simpl. discriminate.
    + intros e Hsink. rewrite (moveToNotes_failed _ note now _ now' w _ Hget Hact Hsink).
      simpl. repeat split; try assumption.
      * apply getReminders_all_complete; [|assumption].
        eapply JSMapFacts.get_In_values; eassumption.
      * apply getReminders_priority_complete; [|assumption].
        eapply JSMapFacts.get_In_values; eassumption.
Qed.
End Move.

(** ** [clearOldReminders] *)

Section Purge.
Context {D : DateLib}.

(** The loop, started on a map whose entries [kept] have been visited and
    retained and whose entries [es] are still to visit. *)
Lemma clear_loop cutoff (kept es : JSMap.t Reminder) (count : Z) :
  JSMap.ok (kept ++ es)%list ->
  fold_left (clear_step cutoff) es ((kept ++ es)%list, count)
  = ((kept ++ filter (fun e => negb (purgeable cutoff (snd e))) es)%list,
     count + Z.of_nat (List.length (filter (fun e => purgeable cutoff (snd e)) es))).
Proof.
  revert kept count. induction es as [|[k r] es IH]; intros kept count Hok.
  - simpl. f_equal. lia.
  - cbn [fold_left clear_step]. fold (created_time r).
    change (negb (Status_eqb (status r) active)
            && js_lt (created_time r) (Num cutoff))%bool
      with (purgeable cutoff r).
    cbn [filter snd]. destruct (purgeable cutoff r) eqn:Hp; cbn [negb].
    + rewrite JSMapFacts.remove_middle.
      * rewrite IH.
        -- f_equal. cbn [List.length]. lia.
        -- unfold JSMap.ok, JSMap.keys in *. rewrite map_app in *. simpl in Hok.
           eapply NoDup_remove_1; eassumption.
      * unfold JSMap.ok, JSMap.keys in *. rewrite map_app in Hok. simpl in Hok.
        apply NoDup_remove_2 in Hok. intros Hin. apply Hok. apply in_or_app. now left.
    + replace (kept ++ (k, r) :: es)%list with ((kept ++ [(k, r)]) ++ es)%list
        by now rewrite <- app_assoc.
      rewrite IH.
      * now rewrite <- app_assoc.
      * now rewrite <- app_assoc.
Qed.

Lemma clearOldReminders_spec days now w s :
  JSMap.ok (reminders s) ->
  let cutoff := now - days * 24 * 60 * 60 * 1000 in
  let m := filter (fun e => negb (purgeable cutoff (snd e))) (reminders s) in
  let count := Z.of_nat (List.length (filter (fun e => purgeable cutoff (snd e)) (reminders s))) in
  clearOldReminders (Some days) now w s
  = if 0 <? count then (saveReminders w (with_reminders m s), count)
    else (with_reminders m s, count).
Proof.
  intros Hok cutoff m count. unfold clearOldReminders.
  cbv beta iota zeta. fold cutoff.
  assert (H : fold_left (clear_step cutoff) (reminders s) (reminders s, 0) = (m, count))
    by exact (@clear_loop cutoff [] (reminders s) 0 Hok).
  rewrite H. reflexivity.
Qed.

Lemma filter_all_kept (A : Type) (P : A -> bool) l :
  List.length (filter P l) = O -> filter (fun x => negb (P x)) l = l.
Proof.
  induction l as [|x l IH]; simpl; [reflexivity|].
  destruct (P x); simpl; [discriminate|]. intros H. f_equal. auto.
Qed.

(** C3 (amended). [clearOldReminders] removes exactly the records that
    are not active and whose creation instant is strictly before the
    cutoff [now - days * 86400000] ms, returns their number, and writes the
    file only when that number is positive; active records are never
    removed; with [days = 0] every completed or moved record created
    strictly before the current instant is removed; the default is seven
    days. *)
Theorem C3_purge_removes_old_inactive (s : Store) (days now : Z)
    (w : WriteResult FileContent) :
  JSMap.ok (reminders s) ->
  let cutoff := now - days * 86400 * 1000 in
  let out := clearOldReminders (Some days) now w s in
  reminders (fst out)
  = filter (fun e => negb (purgeable cutoff (snd e))) (reminders s)
  /\ snd out
     = Z.of_nat (List.length (filter (fun e => purgeable cutoff (snd e)) (reminders s)))
  /\ (0 < snd out ->
      fst out = saveReminders w (with_reminders (reminders (fst out)) s))
  /\ (snd out = 0 -> fst out = s)
  /\ (forall k r, JSMap.get k (reminders s) = Some r -> status r = active ->
        JSMap.get k (reminders (fst out)) = Some r)
  /\ (days = 0 ->
      forall k r, JSMap.get k (reminders s) = Some r -> status r <> active ->
        js_lt (created_time r) (Num now) = true ->
        JSMap.get k (reminders (fst out)) = None)
  /\ clearOldReminders None now w s = clearOldReminders (Some 7) now w s.
Proof.
  intros Hok cutoff out.
  assert (Hc : cutoff = now - days * 24 * 60 * 60 * 1000) by (unfold cutoff; lia).
  assert (Hout : reminders (fst out)
                 = filter (fun e => negb (purgeable cutoff (snd e))) (reminders s)
                 /\ snd out
                    = Z.of_nat (List.length (filter (fun e => purgeable cutoff (snd e))
                                          (reminders s)))).
  { subst out. rewrite clearOldReminders_spec by assumption. rewrite <- Hc.
    destruct (0 <? _); simpl; rewrite ?reminders_saveReminders; simpl; auto. }
  destruct Hout as [Hm Hn]. split; [exact Hm|]. split; [exact Hn|].
  split; [|split; [|split; [|split]]].
  - intros Hpos. rewrite Hm. subst out.
    rewrite clearOldReminders_spec in * by assumption. rewrite <- Hc in *.
    destruct (Z.ltb_spec 0 (Z.of_nat (List.length (filter (fun e => purgeable cutoff (snd e))
                                                (reminders s))))) as [Hlt|Hge].
    + reflexivity.
    + simpl in Hpos. lia.
  - intros Hzero. subst out.
    rewrite clearOldReminders_spec in * by assumption. rewrite <- Hc in *.
    destruct (Z.ltb_spec 0 (Z.of_nat (List.length (filter (fun e => purgeable cutoff (snd e))
                                                (reminders s))))) as [Hlt|Hge].
    + simpl in Hzero. lia.
    + simpl. rewrite filter_all_kept by (simpl in Hzero; lia).
      apply with_reminders_same.
  - intros k r Hget Hact. rewrite Hm, JSMapFacts.get_filter, Hget by assumption.
    simpl. unfold purgeable. rewrite Hact. reflexivity.
  - intros -> k r Hget Hst Hlt. rewrite Hm, JSMapFacts.get_filter, Hget by assumption.
    simpl. unfold purgeable, cutoff.
    replace (now - 0 * 86400 * 1000) with now by lia. rewrite Hlt.
    destruct (status r); simpl; congruence.
  - reflexivity.
Qed.
End Purge.

(** ** Persistence: [saveReminders] then [loadReminders] *)

Module PersistFacts.
Section Objects.
Variable V : Type.
Implicit Types (o es : list (string * V)).

Lemma insert_perm k (v : V) o : Permutation (JSObject.insert k v o) ((k, v) :: o).
Proof.
  induction o as [|[k' v'] o IH]; simpl; [reflexivity|].
  destruct (JSObject.key_before k k'); [reflexivity|].
  rewrite IH. apply perm_swap.
Qed.

Lemma insert_plain k (v : V) o :
  array_index k = None -> JSObject.insert k v o = (o ++ [(k, v)])%list.
Proof.
  intros Hk. induction o as [|[k' v'] o IH]; simpl; [reflexivity|].
  unfold JSObject.key_before. rewrite Hk. now rewrite IH.
Qed.

Lemma define_new k (v : V) o :
  ~ In k (JSMap.keys o) -> JSObject.define k v o = JSObject.insert k v o.
Proof.
  intros Hn. unfold JSObject.define.
  destruct (JSMap.has k o) eqn:Hhas; [|reflexivity].
  apply JSMapFacts.has_true in Hhas. contradiction.
Qed.

Lemma keys_perm o o' : Permutation o o' -> Permutation (JSMap.keys o) (JSMap.keys o').
Proof. apply Permutation_map. Qed.

Lemma fromEntries_acc es o :
  NoDup (JSMap.keys o ++ JSMap.keys es)%list ->
  Permutation (fold_left (fun o e => JSObject.define (fst e) (snd e) o) es o)
              (o ++ es)%list.
Proof.
  revert o. induction es as [|[k v] es IH]; intros o Hnd; simpl.
  - now rewrite app_nil_r.
  - simpl in Hnd.
    assert (Hk : ~ In k (JSMap.keys o)).
    { apply NoDup_remove_2 in Hnd. intros Hin. apply Hnd. apply in_or_app. now left. }
    rewrite define_new by assumption.
    rewrite IH.
    + rewrite insert_perm. simpl. apply Permutation_middle.
    + eapply Permutation_NoDup; [|exact Hnd].
      rewrite (keys_perm (insert_perm k v o)). simpl.
      symmetry. apply Permutation_middle.
Qed.

Lemma fromEntries_perm es : JSMap.ok es -> Permutation (JSObject.fromEntries es) es.
Proof. intros Hok. unfold JSObject.fromEntries. now rewrite fromEntries_acc. Qed.

Lemma fromEntries_plain_acc es o :
  NoDup (JSMap.keys o ++ JSMap.keys es)%list ->
  (forall k, In k (JSMap.keys es) -> array_index k = None) ->
  fold_left (fun o e => JSObject.define (fst e) (snd e) o) es o = (o ++ es)%list.
Proof.
  revert o. induction es as [|[k v] es IH]; intros o Hnd Hplain; simpl.
  - now rewrite app_nil_r.
  - simpl in Hnd.
    assert (Hk : ~ In k (JSMap.keys o)).
    { apply NoDup_remove_2 in Hnd. intros Hin. apply Hnd. apply in_or_app. now left. }
    rewrite define_new by assumption.
    rewrite insert_plain by (apply Hplain; now left).
    rewrite IH.
    + now rewrite <- app_assoc.
    + unfold JSMap.keys in *. rewrite map_app. simpl. now rewrite <- app_assoc.
    + intros k' Hk'. apply Hplain. now right.
Qed.

(** Without array-index keys [Object.fromEntries] keeps the order. *)
Lemma fromEntries_plain es :
  JSMap.ok es -> (forall k, In k (JSMap.keys es) -> array_index k = None) ->
  JSObject.fromEntries es = es.
Proof. intros Hok Hp. unfold JSObject.fromEntries. now rewrite fromEntries_plain_acc. Qed.

Lemma get_perm o o' k :
  JSMap.ok o -> Permutation o o' -> JSMap.get k o' = JSMap.get k o.
Proof.
  intros Hok Hperm.
  assert (Hok' : JSMap.ok o').
  { unfold JSMap.ok. eapply Permutation_NoDup; [apply keys_perm; eassumption|assumption]. }
  destruct (JSMap.get k o) as [v|] eqn:Hget.
  - apply JSMapFacts.In_get; [assumption|].
    eapply Permutation_in; [eassumption|]. now apply JSMapFacts.get_Some_In.
  - apply JSMapFacts.get_None_keys. apply JSMapFacts.get_None_keys in Hget.
    intros Hin. apply Hget. eapply Permutation_in; [|eassumption].
    symmetry. now apply keys_perm.
Qed.
End Objects.

Lemma Reminder_roundtrip (r : Reminder) : Reminder_ofJSON (Reminder_toJSON r) = Some r.
Proof. destruct r as [i c p cr [t|] st]; destruct p, st; reflexivity. Qed.

Lemma decode_encode (o : list (string * Reminder)) :
  decode_entries (map (fun e => (fst e, Reminder_toJSON (snd e))) o) = Some o.
Proof.
  induction o as [|[k r] o IH]; [reflexivity|].
  cbn [map decode_entries fst snd]. now rewrite Reminder_roundtrip, IH.
Qed.

(** Generated ids start with a letter: they are never array indices. *)
Lemma reminder_id_not_index now rnd : array_index (reminder_id now rnd) = None.
Proof.
  unfold array_index, reminder_id. simpl.
  destruct (NilEmpty.uint_of_string _); reflexivity.
Qed.
End PersistFacts.

Lemma load_saved (m : JSMap.t Reminder) :
  JSMap.ok m ->
  loadReminders (Some (Json (persisted_form m))) = Some (JSObject.fromEntries m).
Proof.
  intros Hok. simpl. unfold persisted_form, JSObject.entries.
  rewrite PersistFacts.decode_encode. f_equal.
  apply JSMapFacts.of_entries_ok. unfold JSMap.ok.
  eapply Permutation_NoDup; [|exact Hok].
  symmetry. apply PersistFacts.keys_perm. now apply PersistFacts.fromEntries_perm.
Qed.

(** C8. Writing the store with [saveReminders] and reading the file back
    with [loadReminders] yields a map with the same ids bound to the same
    records (content, priority, created, completed and status); the
    entries are the same up to order, and in the same order when no id is
    an array index. *)
Theorem C8_save_then_load_roundtrip (s : Store) :
  JSMap.ok (reminders s) ->
  exists m,
    loadReminders (remindersFile (saveReminders Written s)) = Some m
    /\ JSMap.ok m
    /\ (forall k, JSMap.get k m = JSMap.get k (reminders s))
    /\ Permutation m (reminders s)
    /\ ((forall k, In k (JSMap.keys (reminders s)) -> array_index k = None) ->
        m = reminders s).
Proof.
  intros Hok. exists (JSObject.fromEntries (reminders s)).
  pose proof (PersistFacts.fromEntries_perm Hok) as Hperm.
  assert (Hok' : JSMap.ok (JSObject.fromEntries (reminders s))).
  { unfold JSMap.ok. eapply Permutation_NoDup; [|exact Hok].
    symmetry. now apply PersistFacts.keys_perm. }
  split; [|split; [exact Hok'|split; [|split; [exact Hperm|]]]].
  - now apply load_saved.
  - intros k. symmetry. apply PersistFacts.get_perm; [assumption|].
    now symmetry.
  - intros Hplain. now apply PersistFacts.fromEntries_plain.
Qed.

(** ** [addReminder] *)

Section Add.
Context {D : DateLib}.

Lemma filter_perm (A : Type) (P : A -> bool) (l l' : list A) :
  Permutation l l' -> Permutation (filter P l) (filter P l').
Proof.
  induction 1 as [|x l l' _ IH|x y l|l l' l'' _ IH1 _ IH2]; simpl.
  - constructor.
  - destruct (P x); [now constructor|assumption].
  - destruct (P x), (P y); try reflexivity. apply perm_swap.
  - now transitivity (filter P l').
Qed.

(** What [getReminders()] returns, up to order. *)
Lemma getReminders_all_perm s :
  Permutation (getReminders None s)
    (filter (fun r => Status_eqb (status r) active) (JSMap.values (reminders s))).
Proof. unfold getReminders. simpl. apply SortFacts.Array_sort_perm. Qed.

Lemma values_app (m m' : JSMap.t Reminder) :
  JSMap.values (m ++ m')%list = (JSMap.values m ++ JSMap.values m')%list.
Proof. apply map_app. Qed.

Lemma no_other_record_with_id key (m : JSMap.t Reminder) :
  keyed_by_id m -> ~ In key (JSMap.keys m) ->
  filter (fun x => String.eqb (id x) key)
    (filter (fun r => Status_eqb (status r) active) (JSMap.values m)) = [].
Proof.
  intros [_ Hid] Hfresh.
  match goal with |- ?l = [] => destruct l as [|x l'] eqn:E; [reflexivity|exfalso] end.
  assert (Hx : In x (x :: l')) by now left.
  rewrite <- E in Hx. apply filter_In in Hx. destruct Hx as [Hx Hk].
  apply filter_In in Hx. destruct Hx as [Hx _].
  apply JSMapFacts.In_values_get in Hx. destruct Hx as [k Hin].
  apply String.eqb_eq in Hk. rewrite (Hid _ _ Hin) in Hk. subst k.
  apply Hfresh. change key with (fst (key, x)). now apply in_map.
Qed.

(** C7 (amended). [addReminder] stores, under the id
    [rem_<now>_<suffix>] that it returns, a record with the given
    content, the given priority (normal when omitted), [created] set to
    the current instant and status active. When that id is not already in
    use, the record is appended to the map, and the listing that follows
    contains exactly one record with that id, which is this record, and
    one more active record of that content and priority than the listing
    before. *)
Theorem C7_add_then_list (s : Store) (c : string) (p : option Priority)
    (now : Z) (rnd : string) (now' : Z) (w : WriteResult FileContent) :
  keyed_by_id (reminders s) ->
  ~ In (reminder_id now rnd) (JSMap.keys (reminders s)) ->
  let key := reminder_id now rnd in
  let q := match p with Some q => q | None => normal end in
  let r := mkReminder key c q (toISOString now') None active in
  let out := addReminder c p now rnd now' w s in
  snd out = key
  /\ reminders (fst out) = (reminders s ++ [(key, r)])%list
  /\ JSMap.get key (reminders (fst out)) = Some r
  /\ keyed_by_id (reminders (fst out))
  /\ filter (fun x => String.eqb (id x) key) (getReminders None (fst out)) = [r]
  /\ List.length (filter (matches c q) (getReminders None (fst out)))
     = S (List.length (filter (matches c q) (getReminders None s))).
Proof.
  intros Hkeyed Hfresh key q r out.
  assert (Hm : reminders (fst out) = (reminders s ++ [(key, r)])%list).
  { subst out. unfold addReminder. simpl. rewrite reminders_saveReminders. simpl.
    now apply JSMapFacts.set_absent. }
  assert (Hvals : filter (fun r => Status_eqb (status r) active)
                    (JSMap.values (reminders (fst out)))
                  = (filter (fun r => Status_eqb (status r) active)
                       (JSMap.values (reminders s)) ++ [r])%list).
  { rewrite Hm, values_app, filter_app. reflexivity. }
  split; [reflexivity|]. split; [exact Hm|]. split; [|split; [|split]].
  - subst out. unfold addReminder. simpl. rewrite reminders_saveReminders. simpl.
    apply JSMapFacts.get_set_same.
  - subst out. unfold addReminder. simpl. rewrite reminders_saveReminders. simpl.
    now apply keyed_set.
  - apply Permutation_length_1_inv. symmetry.
    rewrite (filter_perm _ (getReminders_all_perm (fst out))).
    rewrite Hvals, filter_app, no_other_record_with_id by assumption.
    simpl. now rewrite String.eqb_refl.
  - rewrite (Permutation_length (filter_perm _ (getReminders_all_perm (fst out)))).
    rewrite (Permutation_length (filter_perm _ (getReminders_all_perm s))).
    rewrite Hvals, filter_app, length_app. simpl. unfold matches at 2. simpl.
    rewrite String.eqb_refl, Priority_eqb_refl. simpl. lia.
Qed.

(** C10. The store accepts the empty string as content: [addReminder]
    creates an active record under the id it returns and writes it to the
    file, from which it can be loaded back; the record is listed, and
    [completeReminder] and [deleteReminder] succeed on its id. *)
Theorem C10_empty_content_is_stored (s : Store) (p : option Priority)
    (now : Z) (rnd : string) (now' : Z) :
  JSMap.ok (reminders s) ->
  let out := addReminder "" p now rnd now' Written s in
  let key := snd out in
  exists r,
    JSMap.get key (reminders (fst out)) = Some r
    /\ id r = key /\ content r = "" /\ status r = active
    /\ remindersFile (fst out) = Some (Json (persisted_form (reminders (fst out))))
    /\ (exists m, loadReminders (remindersFile (fst out)) = Some m
                  /\ JSMap.get key m = Some r)
    /\ In r (getReminders None (fst out))
    /\ In r (getReminders (Some (Priority_string (priority r))) (fst out))
    /\ (forall now2 w2, snd (completeReminder key now2 w2 (fst out)) = true)
    /\ (forall w2, snd (deleteReminder key w2 (fst out)) = true
                   /\ JSMap.get key (reminders (fst (deleteReminder key w2 (fst out)))) = None).
Proof.
  intros Hok out key.
  set (r := mkReminder (reminder_id now rnd) ""
              (match p with Some q => q | None => normal end)
              (toISOString now') None active).
  assert (Hget : JSMap.get key (reminders (fst out)) = Some r).
  { subst out key. simpl. apply JSMapFacts.get_set_same. }
  assert (Hok' : JSMap.ok (reminders (fst out))).
  { subst out. simpl. now apply JSMapFacts.ok_set. }
  exists r. split; [exact Hget|]. repeat split.
  - exists (JSObject.fromEntries (reminders (fst out))). split.
    + subst out. simpl. apply load_saved. now apply JSMapFacts.ok_set.
    + rewrite <- Hget. apply PersistFacts.get_perm; [assumption|].
      symmetry. now apply PersistFacts.fromEntries_perm.
  - apply getReminders_all_complete; [|reflexivity].
    eapply JSMapFacts.get_In_values; eassumption.
  - apply getReminders_priority_complete; [|reflexivity].
    eapply JSMapFacts.get_In_values; eassumption.
  - intros now2 w2. now rewrite (completeReminder_active _ now2 w2 _ Hget eq_refl).
  - unfold deleteReminder, JSMap.delete, JSMap.has. now rewrite Hget.
  - unfold deleteReminder, JSMap.delete, JSMap.has. rewrite Hget. cbn [fst].
    rewrite reminders_saveReminders. unfold with_reminders. cbn [reminders].
    now apply JSMapFacts.get_remove_same.
Qed.
End Add.

(** ** The life cycle of a record *)

Section Lifecycle.
Context {D : DateLib}.

Lemma evolves_refl r : evolves r r.
Proof. unfold evolves. repeat split; auto. Qed.

Lemma evolves_trans r1 r2 r3 : evolves r1 r2 -> evolves r2 r3 -> evolves r1 r3.
Proof.
  unfold evolves.
  intros (Hi & Hc & Hp & Hcr & H12) (Hi' & Hc' & Hp' & Hcr' & H23).
  repeat split; try congruence.
  destruct H12 as [[Hs Hd]|[(Ha & Hs & t & Hd)|(Ha & Hs & Hd)]];
    destruct H23 as [[Hs' Hd']|[(Ha' & Hs' & t' & Hd')|(Ha' & Hs' & Hd')]];
    try congruence.
  - left. split; congruence.
  - right. left. repeat split; try congruence. exists t'. congruence.
  - right. right. repeat split; congruence.
  - right. left. repeat split; try congruence. exists t. congruence.
  - right. right. repeat split; congruence.
Qed.

(** Replacing the record under [key] by a later version of itself. *)
Lemma get_set_evolved key r r' (m : JSMap.t Reminder) k :
  JSMap.get key m = Some r -> evolves r r' ->
  match JSMap.get k m, JSMap.get k (JSMap.set key r' m) with
  | Some r0, Some r0' => evolves r0 r0'
  | None, None => True
  | _, _ => False
  end.
Proof.
  intros Hget Hev. destruct (string_dec k key) as [->|Hne].
  - now rewrite Hget, JSMapFacts.get_set_same.
  - rewrite JSMapFacts.get_set_other by assumption.
    destruct (JSMap.get k m); [apply evolves_refl|exact I].
Qed.

Lemma get_unchanged (m : JSMap.t Reminder) k :
  match JSMap.get k m, JSMap.get k m with
  | Some r0, Some r0' => evolves r0 r0'
  | None, None => True
  | _, _ => False
  end.
Proof. destruct (JSMap.get k m); [apply evolves_refl|exact I]. Qed.

Lemma step_weaken c k (a b : option Reminder) :
  match a, b with
  | Some r0, Some r0' => evolves r0 r0'
  | None, None => True
  | _, _ => False
  end ->
  match a, b with
  | Some r, Some r' => evolves r r'
  | Some r, None => removal_call c k r
  | None, Some r' => newborn r' /\ is_add_of c k
  | None, None => True
  end.
Proof. destruct a, b; tauto. Qed.

Lemma reminders_clearOldReminders days now w s :
  JSMap.ok (reminders s) ->
  exists cutoff,
    reminders (fst (clearOldReminders days now w s))
    = filter (fun e => negb (purgeable cutoff (snd e))) (reminders s).
Proof.
  intros Hok.
  assert (H : forall d, exists cutoff,
             reminders (fst (clearOldReminders (Some d) now w s))
             = filter (fun e => negb (purgeable cutoff (snd e))) (reminders s)).
  { intros d. exists (now - d * 24 * 60 * 60 * 1000).
    rewrite clearOldReminders_spec by assumption.
    destruct (0 <? _); simpl; now rewrite ?reminders_saveReminders. }
  destruct days as [d|]; [apply H|apply (H 7)].
Qed.

(** One call, seen from one key. *)
Lemma exec_get c s k :
  JSMap.ok (reminders s) ->
  fresh_adds (JSMap.keys (reminders s)) [c] ->
  match JSMap.get k (reminders s), JSMap.get k (reminders (exec c s)) with
  | Some r, Some r' => evolves r r'
  | Some r, None => removal_call c k r
  | None, Some r' => newborn r' /\ is_add_of c k
  | None, None => True
  end.
Proof.
  intros Hok Hfresh.
  destruct c as [c0 p now rnd now' w|f|key now w|key w|key note now sink now' w|days now w];
    cbn [exec].
  - (* addReminder *)
    destruct Hfresh as [Hfresh _]. unfold addReminder. cbn [fst].
    rewrite reminders_saveReminders. unfold with_reminders. cbn [reminders].
    destruct (string_dec k (reminder_id now rnd)) as [->|Hne].
    + rewrite JSMapFacts.get_set_same.
      apply JSMapFacts.get_None_keys in Hfresh. rewrite Hfresh.
      split; [split; reflexivity|reflexivity].
    + rewrite JSMapFacts.get_set_other by assumption.
      apply step_weaken, get_unchanged.
  - (* getReminders *)
    apply step_weaken, get_unchanged.
  - (* completeReminder *)
    apply step_weaken.
    destruct (JSMap.get key (reminders s)) as [r|] eqn:Hget.
    + destruct (Status_eqb (status r) active) eqn:Hst.
      * apply Status_eqb_eq in Hst.
        rewrite (completeReminder_active _ now w _ Hget Hst). cbn [fst].
        rewrite reminders_saveReminders. unfold with_reminders. cbn [reminders].
        apply get_set_evolved with (r := r); [assumption|].
        unfold evolves. simpl. repeat split.
        right. left. repeat split; [assumption|]. now exists now.
      * rewrite completeReminder_refused; [apply get_unchanged|].
        intros r0 E Ha. rewrite Hget in E. injection E as <-.
        apply Status_eqb_eq in Ha. congruence.
    + rewrite completeReminder_refused; [apply get_unchanged|].
      intros r0 E. rewrite Hget in E. discriminate.
  - (* deleteReminder *)
    assert (Hm : reminders (fst (deleteReminder key w s)) = JSMap.remove key (reminders s)).
    { unfold deleteReminder, JSMap.delete. destruct (JSMap.has key (reminders s)); cbn [fst].
      - now rewrite reminders_saveReminders.
      - reflexivity. }
    rewrite Hm. destruct (string_dec k key) as [->|Hne].
    + rewrite JSMapFacts.get_remove_same by assumption.
      destruct (JSMap.get key (reminders s)); [reflexivity|exact I].
    + rewrite JSMapFacts.get_remove_other by assumption.
      apply step_weaken, get_unchanged.
  - (* moveToNotes *)
    apply step_weaken.
    destruct (JSMap.get key (reminders s)) as [r|] eqn:Hget.
    + destruct (Status_eqb (status r) active) eqn:Hst.
      * apply Status_eqb_eq in Hst.
        destruct (handoff_error sink) as [e|] eqn:Hsink.
        -- rewrite (moveToNotes_failed _ note now _ now' w _ Hget Hst Hsink).
           apply get_unchanged.
        -- rewrite (moveToNotes_handed_off _ note now _ now' w _ Hget Hst Hsink).
           cbn [fst]. rewrite reminders_saveReminders. cbn [reminders].
           apply get_set_evolved with (r := r); [assumption|].
           unfold evolves. simpl. repeat split.
           right. right. repeat split; assumption.
      * rewrite moveToNotes_refused; [apply get_unchanged|].
        intros r0 E Ha. rewrite Hget in E. injection E as <-.
        apply Status_eqb_eq in Ha. congruence.
    + rewrite moveToNotes_refused; [apply get_unchanged|].
      intros r0 E. rewrite Hget in E. discriminate.
  - (* clearOldReminders *)
    destruct (reminders_clearOldReminders days now w s Hok) as [cutoff Hm].
    rewrite Hm, JSMapFacts.get_filter by assumption.
    destruct (JSMap.get k (reminders s)) as [r|]; [|exact I].
    cbn [snd]. destruct (purgeable cutoff r) eqn:Hp; cbn [negb].
    + cbn [removal_call]. unfold purgeable in Hp.
      apply andb_true_iff in Hp. destruct Hp as [Hp _].
      intros Ha. rewrite Ha in Hp. discriminate.
    + apply evolves_refl.
Qed.

Lemma exec_ok c s : JSMap.ok (reminders s) -> JSMap.ok (reminders (exec c s)).
Proof.
  intros Hok.
  destruct c as [c0 p now rnd now' w|f|key now w|key w|key note now sink now' w|days now w];
    cbn [exec].
  - unfold addReminder. cbn [fst]. rewrite reminders_saveReminders.
    now apply JSMapFacts.ok_set.
  - assumption.
  - unfold completeReminder. destruct (JSMap.get key (reminders s)); [|assumption].
    destruct (negb _); [assumption|]. cbn [fst]. rewrite reminders_saveReminders.
    now apply JSMapFacts.ok_set.
  - unfold deleteReminder, JSMap.delete. destruct (JSMap.has key (reminders s)); cbn [fst];
      rewrite ?reminders_saveReminders; now apply JSMapFacts.ok_remove.
  - unfold moveToNotes. destruct (JSMap.get key (reminders s)); [|assumption].
    destruct (negb _); [assumption|].
    destruct (if dirExists sink then None else mkdirError sink); [assumption|].
    destruct (writeError sink); [assumption|]. cbn [fst].
    rewrite reminders_saveReminders. now apply JSMapFacts.ok_set.
  - destruct (reminders_clearOldReminders days now w s Hok) as [cutoff Hm].
    rewrite Hm. now apply JSMapFacts.ok_filter.
Qed.

(** A call that changes a stored record is the completion or the move of
    that record. *)
Lemma exec_transition c s k r r' :
  JSMap.ok (reminders s) ->
  fresh_adds (JSMap.keys (reminders s)) [c] ->
  JSMap.get k (reminders s) = Some r ->
  JSMap.get k (reminders (exec c s)) = Some r' ->
  r' <> r -> caused_by c k r r'.
Proof.
  intros Hok Hfresh Hk Hk' Hdiff.
  destruct c as [c0 p now rnd now' w|f|key now w|key w|key note now sink now' w|days now w];
    cbn [exec] in Hk'; cbn [caused_by].
  - destruct Hfresh as [Hfresh _]. unfold addReminder in Hk'. cbn [fst] in Hk'.
    rewrite reminders_saveReminders in Hk'. unfold with_reminders in Hk'.
    cbn [reminders] in Hk'.
    destruct (string_dec k (reminder_id now rnd)) as [->|Hne].
    + apply JSMapFacts.get_None_keys in Hfresh. congruence.
    + rewrite JSMapFacts.get_set_other in Hk' by assumption. congruence.
  - congruence.
  - destruct (JSMap.get key (reminders s)) as [r0|] eqn:Hget.
    + destruct (Status_eqb (status r0) active) eqn:Hst.
      * apply Status_eqb_eq in Hst.
        rewrite (completeReminder_active _ now w _ Hget Hst) in Hk'. cbn [fst] in Hk'.
        rewrite reminders_saveReminders in Hk'. unfold with_reminders in Hk'.
        cbn [reminders] in Hk'.
        destruct (string_dec k key) as [->|Hne].
        -- rewrite JSMapFacts.get_set_same in Hk'. injection Hk' as <-.
           rewrite Hget in Hk. injection Hk as <-. simpl. auto.
        -- rewrite JSMapFacts.get_set_other in Hk' by assumption. congruence.
      * rewrite completeReminder_refused in Hk'; [cbn [fst] in Hk'; congruence|].
        intros r1 E Ha. rewrite Hget in E. injection E as <-.
        apply Status_eqb_eq in Ha. congruence.
    + rewrite completeReminder_refused in Hk'; [cbn [fst] in Hk'; congruence|].
      intros r1 E. rewrite Hget in E. discriminate.
  - assert (Hm : reminders (fst (deleteReminder key w s)) = JSMap.remove key (reminders s)).
    { unfold deleteReminder, JSMap.delete. destruct (JSMap.has key (reminders s)); cbn [fst].
      - now rewrite reminders_saveReminders.
      - reflexivity. }
    rewrite Hm in Hk'. destruct (string_dec k key) as [->|Hne].
    + rewrite JSMapFacts.get_remove_same in Hk' by assumption. discriminate.
    + rewrite JSMapFacts.get_remove_other in Hk' by assumption. congruence.
  - destruct (JSMap.get key (reminders s)) as [r0|] eqn:Hget.
    + destruct (Status_eqb (status r0) active) eqn:Hst.
      * apply Status_eqb_eq in Hst.
        destruct (handoff_error sink) as [e|] eqn:Hsink.
        -- rewrite (moveToNotes_failed _ note now _ now' w _ Hget Hst Hsink) in Hk'.
           cbn [fst] in Hk'. congruence.
        -- rewrite (moveToNotes_handed_off _ note now _ now' w _ Hget Hst Hsink) in Hk'.
           cbn [fst] in Hk'. rewrite reminders_saveReminders in Hk'. cbn [reminders] in Hk'.
           destruct (string_dec k key) as [->|Hne].
           ++ rewrite JSMapFacts.get_set_same in Hk'. injection Hk' as <-.
              rewrite Hget in Hk. injection Hk as <-. simpl. auto.
           ++ rewrite JSMapFacts.get_set_other in Hk' by assumption. congruence.
      * rewrite moveToNotes_refused in Hk'; [cbn [fst] in Hk'; congruence|].
        intros r1 E Ha. rewrite Hget in E. injection E as <-.
        apply Status_eqb_eq in Ha. congruence.
    + rewrite moveToNotes_refused in Hk'; [cbn [fst] in Hk'; congruence|].
      intros r1 E. rewrite Hget in E. discriminate.
  - destruct (reminders_clearOldReminders days now w s Hok) as [cutoff Hm].
    rewrite Hm, JSMapFacts.get_filter, Hk in Hk' by assumption.
    destruct (negb _); congruence.
Qed.

Lemma fresh_adds_cons used c rest :
  fresh_adds used (c :: rest)
  <-> fresh_adds used [c] /\ fresh_adds (used_after used c) rest.
Proof. destruct c; simpl; tauto. Qed.

Lemma fresh_adds_mono used used' calls :
  (forall k, In k used' -> In k used) ->
  fresh_adds used calls -> fresh_adds used' calls.
Proof.
  revert used used'. induction calls as [|c rest IH]; intros used used' Hsub; [trivial|].
  destruct c; simpl; try (apply IH; assumption).
  intros [Hn Hrest]. split; [auto|].
  eapply IH; [|exact Hrest]. simpl. intros k [->|Hk]; auto.
Qed.

Lemma used_after_incl used c k : In k used -> In k (used_after used c).
Proof. destruct c; simpl; auto. Qed.

(** The keys of the store stay among the ids in use. *)
Lemma exec_keys_used c s used :
  JSMap.ok (reminders s) ->
  (forall k, In k (JSMap.keys (reminders s)) -> In k used) ->
  fresh_adds used [c] ->
  forall k, In k (JSMap.keys (reminders (exec c s))) -> In k (used_after used c).
Proof.
  intros Hok Hsub Hfresh k Hin.
  assert (Hfresh' : fresh_adds (JSMap.keys (reminders s)) [c])
    by (eapply fresh_adds_mono; eassumption).
  pose proof (exec_get c s k Hok Hfresh') as Hstep.
  destruct (JSMap.get k (reminders (exec c s))) as [r'|] eqn:Hget'.
  - destruct (JSMap.get k (reminders s)) as [r|] eqn:Hget.
    + apply used_after_incl, Hsub.
      destruct (in_dec string_dec k (JSMap.keys (reminders s))) as [Hi|Hn]; [assumption|].
      apply JSMapFacts.get_None_keys in Hn. congruence.
    + destruct Hstep as [_ Hadd]. destruct c; simpl in Hadd; try contradiction.
      simpl. now left.
  - apply JSMapFacts.get_None_keys in Hget'. contradiction.
Qed.

(** A record found after a trace is a later version of the record found
    under its key before the trace, or of a record added by the trace. *)
Lemma run_evolves post : forall s used,
  JSMap.ok (reminders s) ->
  (forall k, In k (JSMap.keys (reminders s)) -> In k used) ->
  fresh_adds used post ->
  forall k r2, JSMap.get k (reminders (run post s)) = Some r2 ->
    match JSMap.get k (reminders s) with
    | Some r1 => evolves r1 r2
    | None => ~ In k used /\ exists r1, newborn r1 /\ evolves r1 r2
    end.
Proof.
  induction post as [|c rest IH]; intros s used Hok Hsub Hfresh k r2 Hget2.
  - simpl in Hget2. rewrite Hget2. apply evolves_refl.
  - apply fresh_adds_cons in Hfresh. destruct Hfresh as [Hc Hrest].
    assert (Hc' : fresh_adds (JSMap.keys (reminders s)) [c])
      by (eapply fresh_adds_mono; eassumption).
    change (run (c :: rest) s) with (run rest (exec c s)) in Hget2.
    specialize (IH (exec c s) (used_after used c) (exec_ok c s Hok)
                   (exec_keys_used c s used Hok Hsub Hc) Hrest k r2 Hget2).
    pose proof (exec_get c s k Hok Hc') as Hstep.
    destruct (JSMap.get k (reminders s)) as [r1|] eqn:Hget;
      destruct (JSMap.get k (reminders (exec c s))) as [r1'|] eqn:Hget'.
    + eapply evolves_trans; eassumption.
    + destruct IH as [Hn _]. exfalso. apply Hn. apply used_after_incl, Hsub.
      destruct (in_dec string_dec k (JSMap.keys (reminders s))) as [Hi|Hni]; [assumption|].
      apply JSMapFacts.get_None_keys in Hni. congruence.
    + destruct Hstep as [Hnew Hadd]. split.
      * destruct c; simpl in Hadd; try contradiction. subst k.
        simpl in Hc. tauto.
      * exists r1'. split; assumption.
    + destruct IH as [Hn Hex]. split; [|assumption].
      intros Hin. apply Hn. now apply used_after_incl.
Qed.

Lemma run_app pre post s : run (pre ++ post) s = run post (run pre s).
Proof. unfold run. apply fold_left_app. Qed.

Lemma run_ok calls : forall s, JSMap.ok (reminders s) -> JSMap.ok (reminders (run calls s)).
Proof.
  induction calls as [|c rest IH]; intros s Hok; [assumption|].
  apply IH. now apply exec_ok.
Qed.

(** After a prefix of a trace with fresh ids, the rest of the trace still
    generates fresh ids. *)
Lemma fresh_adds_run pre post : forall s used,
  JSMap.ok (reminders s) ->
  (forall k, In k (JSMap.keys (reminders s)) -> In k used) ->
  fresh_adds used (pre ++ post) ->
  exists used',
    (forall k, In k (JSMap.keys (reminders (run pre s))) -> In k used')
    /\ fresh_adds used' post.
Proof.
  induction pre as [|c pre IH]; intros s used Hok Hsub Hfresh.
  - exists used. auto.
  - simpl app in Hfresh. apply fresh_adds_cons in Hfresh. destruct Hfresh as [Hc Hrest].
    apply (IH (exec c s) (used_after used c)); [now apply exec_ok| |assumption].
    now apply exec_keys_used.
Qed.

(** C5 (amended). Along every sequence of calls in which [addReminder]
    generates fresh ids: a record stored under a key after the sequence
    is a later
    version of the record stored under that key before it, or of a record
    that was added active and without completion time; a later version
    has the same id, content, priority and created, and either the same
    status and completion time, or it went from active to completed
    (which sets the completion time) or from active to moved. A single
    call changes a record only as the completion or the successful move of
    that record, and makes a record disappear only as its deletion or as
    a purge of a record that is not active. *)
Theorem C5_status_is_one_way (s0 : Store) (pre post : list Call) :
  JSMap.ok (reminders s0) ->
  fresh_adds (JSMap.keys (reminders s0)) (pre ++ post) ->
  let s1 := run pre s0 in
  let s2 := run post s1 in
  (forall k r2, JSMap.get k (reminders s2) = Some r2 ->
     match JSMap.get k (reminders s1) with
     | Some r1 => evolves r1 r2
     | None => exists r1, newborn r1 /\ evolves r1 r2
     end)
  /\ (forall c k r1, fresh_adds (JSMap.keys (reminders s1)) [c] ->
        JSMap.get k (reminders s1) = Some r1 ->
        match JSMap.get k (reminders (exec c s1)) with
        | Some r2 => r2 = r1 \/ caused_by c k r1 r2
        | None => removal_call c k r1
        end)
  /\ (forall c k r2, fresh_adds (JSMap.keys (reminders s1)) [c] ->
        JSMap.get k (reminders s1) = None ->
        JSMap.get k (reminders (exec c s1)) = Some r2 ->
        newborn r2 /\ is_add_of c k).
Proof.
  intros Hok Hfresh s1 s2.
  assert (Hok1 : JSMap.ok (reminders s1)) by now apply run_ok.
  split; [|split].
  - intros k r2 Hget2.
    destruct (@fresh_adds_run pre post s0 _ Hok (fun k H => H) Hfresh)
      as (used & Hsub & Hpost).
    pose proof (@run_evolves post s1 used Hok1 Hsub Hpost k r2 Hget2) as H.
    destruct (JSMap.get k (reminders s1)); tauto.
  - intros c k r1 Hc Hget1.
    pose proof (exec_get c s1 k Hok1 Hc) as Hstep. rewrite Hget1 in Hstep.
    destruct (JSMap.get k (reminders (exec c s1))) as [r2|] eqn:Hget2; [|assumption].
    assert (Hdec : r2 = r1 \/ r2 <> r1)
      by (destruct (Reminder_eq_dec r2 r1); [now left|now right]).
    destruct Hdec as [Heq|Hne]; [now left|right].
    eapply exec_transition; eassumption.
  - intros c k r2 Hc Hget1 Hget2.
    pose proof (exec_get c s1 k Hok1 Hc) as Hstep.
    now rewrite Hget1, Hget2 in Hstep.
Qed.
End Lifecycle.

(** ** The id invariant along a trace *)

Section KeyedTrace.
Context {D : DateLib}.

Lemma keyed_filter (P : string * Reminder -> bool) m :
  keyed_by_id m -> keyed_by_id (filter P m).
Proof.
  intros [Hok Hid]. split; [now apply JSMapFacts.ok_filter|].
  intros k r Hin. apply filter_In in Hin. apply Hid. tauto.
Qed.

Lemma keyed_get key r m : keyed_by_id m -> JSMap.get key m = Some r -> id r = key.
Proof. intros [_ Hid] Hget. apply Hid. now apply JSMapFacts.get_Some_In. Qed.

(** Every operation keeps the entries keyed by the id of their record. *)
Lemma exec_keyed c s :
  keyed_by_id (reminders s) -> keyed_by_id (reminders (exec c s)).
Proof.
  intros Hk.
  destruct c as [c0 p now rnd now' w|f|key now w|key w|key note now sink now' w|days now w];
    cbn [exec].
  - unfold addReminder. cbn [fst]. rewrite reminders_saveReminders.
    now apply keyed_set.
  - assumption.
  - unfold completeReminder.
    destruct (JSMap.get key (reminders s)) as [r|] eqn:Hget; [|assumption].
    destruct (negb _); [assumption|]. cbn [fst]. rewrite reminders_saveReminders.
    apply keyed_set; [assumption|]. simpl. eapply keyed_get; eassumption.
  - unfold deleteReminder, JSMap.delete. destruct (JSMap.has key (reminders s)); cbn [fst];
      rewrite ?reminders_saveReminders; now apply keyed_remove.
  - unfold moveToNotes.
    destruct (JSMap.get key (reminders s)) as [r|] eqn:Hget; [|assumption].
    destruct (negb _); [assumption|].
    destruct (if dirExists sink then None else mkdirError sink); [assumption|].
    destruct (writeError sink); [assumption|]. cbn [fst].
    rewrite reminders_saveReminders.
    apply keyed_set; [assumption|]. simpl. eapply keyed_get; eassumption.
  - destruct Hk as [Hok Hid].
    destruct (reminders_clearOldReminders days now w s Hok) as [cutoff Hm].
    rewrite Hm. apply keyed_filter. now split.
Qed.

Lemma run_keyed calls : forall s,
  keyed_by_id (reminders s) -> keyed_by_id (reminders (run calls s)).
Proof.
  induction calls as [|c rest IH]; intros s Hk; [assumption|].
  apply IH. now apply exec_keyed.
Qed.

Lemma empty_store_keyed : keyed_by_id (reminders empty_store).
Proof. split; [constructor|]. intros k r []. Qed.
End KeyedTrace.

(** ** Creation instants along a trace *)

Section DatedTrace.
Context {D : DateLib}.

(** What a [Date] implementation provides: the string it prints for an
    instant denotes an instant. *)
Hypothesis toISOString_denotes : forall t, exists t', getTime (toISOString t) = Num t'.

Lemma dated_set key r m :
  JSMap.ok m -> dated m ->
  (status r = active -> exists t, created_time r = Num t) ->
  dated (JSMap.set key r m).
Proof.
  intros Hok Hd Hr r0 Hin Hact.
  apply JSMapFacts.In_values_get in Hin. destruct Hin as [k Hin].
  apply JSMapFacts.In_set in Hin; [|assumption].
  destruct Hin as [[_ ->]|[_ Hin]]; [auto|].
  apply Hd; [|assumption]. unfold JSMap.values.
  change r0 with (snd (k, r0)). now apply in_map.
Qed.

Lemma dated_sub (m m' : JSMap.t Reminder) :
  (forall e, In e m' -> In e m) -> dated m -> dated m'.
Proof.
  intros Hsub Hd r Hin Hact.
  apply JSMapFacts.In_values_get in Hin. destruct Hin as [k Hin].
  apply Hd; [|assumption]. unfold JSMap.values.
  change r with (snd (k, r)). apply in_map. auto.
Qed.

(** Every operation keeps the active records dated. *)
Lemma exec_dated c s :
  JSMap.ok (reminders s) -> dated (reminders s) -> dated (reminders (exec c s)).
Proof.
  intros Hok Hd.
  destruct c as [c0 p now rnd now' w|f|key now w|key w|key note now sink now' w|days now w];
    cbn [exec].
  - unfold addReminder. cbn [fst]. rewrite reminders_saveReminders.
    apply dated_set; [assumption|assumption|].
    intros _. apply toISOString_denotes.
  - assumption.
  - unfold completeReminder.
    destruct (JSMap.get key (reminders s)) as [r|] eqn:Hget; [|assumption].
    destruct (negb _); [assumption|]. cbn [fst]. rewrite reminders_saveReminders.
    apply dated_set; [assumption|assumption|]. simpl. discriminate.
  - unfold deleteReminder, JSMap.delete. destruct (JSMap.has key (reminders s)); cbn [fst];
      rewrite ?reminders_saveReminders;
      (eapply dated_sub; [|eassumption]); intros e; apply JSMapFacts.remove_incl.
  - unfold moveToNotes.
    destruct (JSMap.get key (reminders s)) as [r|] eqn:Hget; [|assumption].
    destruct (negb _); [assumption|].
    destruct (if dirExists sink then None else mkdirError sink); [assumption|].
    destruct (writeError sink); [assumption|]. cbn [fst].
    rewrite reminders_saveReminders.
    apply dated_set; [assumption|assumption|]. simpl. discriminate.
  - destruct (reminders_clearOldReminders days now w s Hok) as [cutoff Hm].
    rewrite Hm. eapply dated_sub; [|eassumption].
    intros e He. apply filter_In in He. tauto.
Qed.

Lemma run_dated calls : forall s,
  JSMap.ok (reminders s) -> dated (reminders s) -> dated (reminders (run calls s)).
Proof.
  induction calls as [|c rest IH]; intros s Hok Hd; [assumption|].
  apply IH; [now apply exec_ok|now apply exec_dated].
Qed.
End DatedTrace.

(* ================================================================= *)
(** * The scenario, worked through *)

Ltac distinct_strings :=
  repeat (constructor; [simpl; intuition discriminate|]); constructor.

Ltac each_entry H :=
  vm_compute in H;
  repeat (destruct H as [H|H]; [injection H as <- <-; reflexivity|]);
  contradiction.

Lemma demo_store_ok : JSMap.ok (reminders demo_store).
Proof. vm_compute. distinct_strings. Qed.

(** The listing of the scenario: "A" and "C" (high, in creation order),
    then "B". *)
Example demo_listing :
  map content (getReminders None demo_store) = ["A"; "C"; "B"].
Proof. reflexivity. Qed.

(** The rest of the scenario: once "B" is completed the listing is "A",
    "C"; once "A" is deleted it is "C". *)
Example demo_listing_after_complete_and_delete :
  map content (getReminders None demo_completed) = ["A"; "C"]
  /\ map content
       (getReminders (Some "all")
          (run [CallDelete (reminder_id t0 "0.k3v9x2a7") Written] demo_completed))
     = ["C"].
Proof. split; reflexivity. Qed.

(** Priorities low, high, normal inserted in that order are listed high,
    normal, low. *)
Example listing_orders_priorities :
  map priority
    (getReminders None
       (run [CallAdd "x" (Some low) t0 "0.aaaaaaa" t0 Written;
             CallAdd "y" (Some high) (t0 + 1) "0.bbbbbbb" (t0 + 1) Written;
             CallAdd "z" (Some normal) (t0 + 2) "0.ccccccc" (t0 + 2) Written]
            empty_store))
  = [high; normal; low].
Proof. reflexivity. Qed.


(** Instance of C9: the filter "urgent". *)
Lemma C9_witness :
  "urgent" <> "all" /\ "urgent" <> "high" /\ "urgent" <> "normal"
  /\ "urgent" <> "low"
  /\ getReminders (Some "urgent") demo_store = [].
Proof.
  assert (H1 : "urgent" <> "all") by discriminate.
  assert (H2 : "urgent" <> "high") by discriminate.
  assert (H3 : "urgent" <> "normal") by discriminate.
  assert (H4 : "urgent" <> "low") by discriminate.
  repeat (split; [assumption|]).
  exact (C9_unknown_filter_lists_nothing demo_store H1 H2 H3 H4).
Defined.

(** The empty string is such a filter too. *)
Example empty_filter_lists_nothing : getReminders (Some "") demo_store = [].
Proof. reflexivity. Qed.

Lemma demo_store_keyed : keyed_by_id (reminders demo_store).
Proof. apply run_keyed, empty_store_keyed. Qed.

(** Instance of C6: deleting "B" from the scenario. *)
Lemma C6_witness :
  JSMap.ok (reminders demo_store)
  /\ (let out := deleteReminder demo_key Written demo_store in
      (forall r, JSMap.get demo_key (reminders demo_store) = Some r ->
         snd out = true
         /\ JSMap.get demo_key (reminders (fst out)) = None
         /\ reminders (fst out)
            = filter (fun e => negb (String.eqb (fst e) demo_key)) (reminders demo_store)
         /\ (forall k, k <> demo_key ->
               JSMap.get k (reminders (fst out)) = JSMap.get k (reminders demo_store)))
      /\ (JSMap.get demo_key (reminders demo_store) = None ->
          snd out = false /\ fst out = demo_store)).
Proof.
  assert (H : JSMap.ok (reminders demo_store)) by (vm_compute; distinct_strings).
  split; [exact H|exact (C6_delete_any_status demo_store demo_key Written H)].
Defined.

(** Instance of C2: moving "B" of the scenario to a working archive. *)
Lemma C2_witness :
  keyed_by_id (reminders demo_store)
  /\ (let out := moveToNotes demo_key (Some "keep") (t0 + 5000) working_sink
                   (t0 + 5001) Written demo_store in
      (success (snd out) = true ->
       exists r, JSMap.get demo_key (reminders demo_store) = Some r /\ status r = active)
      /\ (forall r, JSMap.get demo_key (reminders demo_store) = Some r ->
            status r = active ->
            (handoff_error working_sink = None ->
               success (snd out) = true
               /\ message (snd out)
                  = "Moved to notes: " ++ note_filename (t0 + 5001) demo_key
               /\ JSMap.get demo_key (reminders (fst out)) = Some (set_status moved r)
               /\ In (note_filename (t0 + 5001) demo_key,
                      noteContent r (Some "keep") (t0 + 5000))
                     (notesDir (fst out))
               /\ forall filter r',
                    In r' (getReminders filter (fst out)) -> id r' <> demo_key)
            /\ (forall e, handoff_error working_sink = Some e ->
                  success (snd out) = false
                  /\ message (snd out) = "Error moving to notes: " ++ e
                  /\ fst out = demo_store
                  /\ JSMap.get demo_key (reminders (fst out)) = Some r
                  /\ In r (getReminders None (fst out))
                  /\ In r (getReminders (Some (Priority_string (priority r)))
                             (fst out))))).
Proof.
  assert (H : keyed_by_id (reminders demo_store)).
  { split; [vm_compute; distinct_strings|]. intros k r Hin. each_entry Hin. }
  split; [exact H|].
  exact (C2_move_succeeds_or_leaves_unchanged demo_store demo_key (Some "keep")
           (t0 + 5000) working_sink (t0 + 5001) Written H).
Defined.

(** The message and the file of that move, and the failure on a read-only
    archive. *)
Example demo_move_message :
  message (snd (moveToNotes demo_key (Some "keep") (t0 + 5000) working_sink
                  (t0 + 5001) Written demo_store))
  = "Moved to notes: reminder_2023-11-14_rem_1700000001000_p0q8r.md".
Proof. reflexivity. Qed.

Example demo_move_failure :
  moveToNotes demo_key None (t0 + 5000)
    (mkSinkEnv true None (Some "Error: EACCES: permission denied"))
    (t0 + 5001) Written demo_store
  = (demo_store,
     mkMoveResult false "Error moving to notes: Error: EACCES: permission denied").
Proof. reflexivity. Qed.

(** Instance of C3 (amended): a purge with zero days, one second after "B"
    was completed. *)
Lemma C3_witness :
  JSMap.ok (reminders demo_completed)
  /\ (let cutoff := (t0 + 4000) - 0 * 86400 * 1000 in
      let out := clearOldReminders (Some 0) (t0 + 4000) Written demo_completed in
      reminders (fst out)
      = filter (fun e => negb (purgeable cutoff (snd e))) (reminders demo_completed)
      /\ snd out
         = Z.of_nat (List.length (filter (fun e => purgeable cutoff (snd e))
                                    (reminders demo_completed)))
      /\ (0 < snd out ->
          fst out
          = saveReminders Written (with_reminders (reminders (fst out)) demo_completed))
      /\ (snd out = 0 -> fst out = demo_completed)
      /\ (forall k r, JSMap.get k (reminders demo_completed) = Some r ->
            status r = active ->
            JSMap.get k (reminders (fst out)) = Some r)
      /\ (0 = 0 ->
          forall k r, JSMap.get k (reminders demo_completed) = Some r ->
            status r <> active ->
            js_lt (created_time r) (Num (t0 + 4000)) = true ->
            JSMap.get k (reminders (fst out)) = None)
      /\ clearOldReminders None (t0 + 4000) Written demo_completed
         = clearOldReminders (Some 7) (t0 + 4000) Written demo_completed).
Proof.
  assert (H : JSMap.ok (reminders demo_completed)) by (vm_compute; distinct_strings).
  split; [exact H|].
  exact (C3_purge_removes_old_inactive demo_completed 0 (t0 + 4000) Written H).
Defined.

Example demo_purge_count :
  snd (clearOldReminders (Some 0) (t0 + 4000) Written demo_completed) = 1.
Proof. reflexivity. Qed.

(** C3 as stated fails: a reminder added and completed within one
    millisecond is not removed by a purge with zero days run in that same
    millisecond, because its creation instant is not before the cutoff. *)
Lemma C3_purge_zero_keeps_record_of_this_instant :
  (exists r, JSMap.get instant_key (reminders instant_store) = Some r
             /\ status r = completed)
  /\ snd (clearOldReminders (Some 0) t0 Written instant_store) = 0
  /\ exists r, JSMap.get instant_key
                 (reminders (fst (clearOldReminders (Some 0) t0 Written instant_store)))
               = Some r
               /\ status r = completed.
Proof.
  vm_compute. split; [|split]; [eexists; split; reflexivity|reflexivity|].
  eexists; split; reflexivity.
Qed.

(** Instance of C8 on the scenario. *)
Lemma C8_witness :
  JSMap.ok (reminders demo_store)
  /\ exists m,
       loadReminders (remindersFile (saveReminders Written demo_store)) = Some m
       /\ JSMap.ok m
       /\ (forall k, JSMap.get k m = JSMap.get k (reminders demo_store))
       /\ Permutation m (reminders demo_store)
       /\ ((forall k, In k (JSMap.keys (reminders demo_store)) -> array_index k = None) ->
           m = reminders demo_store).
Proof.
  assert (H : JSMap.ok (reminders demo_store)) by (vm_compute; distinct_strings).
  split; [exact H|exact (C8_save_then_load_roundtrip demo_store H)].
Defined.

(** A store loaded from a hand-written file whose ids are array indices
    comes back in index order. *)
Example reload_reorders_index_keys :
  let r := mkReminder "x" "note" normal (toISOString t0) None active in
  let s := mkStore [("b", r); ("10", r); ("9", r)] None [] in
  option_map (@JSMap.keys Reminder)
    (loadReminders (remindersFile (saveReminders Written s)))
  = Some ["9"; "10"; "b"].
Proof. reflexivity. Qed.

(** C7 as stated fails: after the same text has been added twice, the
    listing holds two active records of that content and priority, so no
    record is the only one matching. *)
Lemma C7_same_text_twice_lists_two :
  ~ (exists! r, In r (getReminders (Some "all") twice_store)
                /\ content r = "A" /\ priority r = high /\ status r = active).
Proof.
  intros (x & _ & Huniq).
  assert (H1 : mkReminder "rem_1700000000000_k3v9x" "A" high
                 "2023-11-14T22:13:20.000Z" None active = x).
  { symmetry. apply Huniq. vm_compute. auto. }
  assert (H2 : mkReminder "rem_1700000001000_p0q8r" "A" high
                 "2023-11-14T22:13:21.000Z" None active = x).
  { symmetry. apply Huniq. vm_compute. auto. }
  rewrite <- H2 in H1. discriminate H1.
Qed.

(** The generated id depends on the clock and the random string alone: a
    second call with the same readings reuses the id and replaces the
    record. *)
Example same_readings_same_id :
  let out1 := addReminder "first" None t0 "0.k3v9x2a7" t0 Written empty_store in
  let out2 := addReminder "second" None t0 "0.k3v9x2a7" t0 Written (fst out1) in
  snd out2 = snd out1
  /\ map content (JSMap.values (reminders (fst out2))) = ["second"].
Proof. split; reflexivity. Qed.

(** Instance of C7 (amended): adding "D" to the scenario. *)
Lemma C7_witness :
  keyed_by_id (reminders demo_store)
  /\ ~ In (reminder_id (t0 + 6000) "0.m4n5b6v7") (JSMap.keys (reminders demo_store))
  /\ (let key := reminder_id (t0 + 6000) "0.m4n5b6v7" in
      let q := match Some low with Some q => q | None => normal end in
      let r := mkReminder key "D" q (toISOString (t0 + 6000)) None active in
      let out := addReminder "D" (Some low) (t0 + 6000) "0.m4n5b6v7" (t0 + 6000)
                   Written demo_store in
      snd out = key
      /\ reminders (fst out) = (reminders demo_store ++ [(key, r)])%list
      /\ JSMap.get key (reminders (fst out)) = Some r
      /\ keyed_by_id (reminders (fst out))
      /\ filter (fun x => String.eqb (id x) key) (getReminders None (fst out)) = [r]
      /\ List.length (filter (matches "D" q) (getReminders None (fst out)))
         = S (List.length (filter (matches "D" q) (getReminders None demo_store)))).
Proof.
  assert (H : keyed_by_id (reminders demo_store)).
  { split; [vm_compute; distinct_strings|]. intros k r Hin. each_entry Hin. }
  assert (Hf : ~ In (reminder_id (t0 + 6000) "0.m4n5b6v7")
                 (JSMap.keys (reminders demo_store))).
  { vm_compute. intuition discriminate. }
  split; [exact H|split; [exact Hf|]].
  exact (C7_add_then_list demo_store "D" (Some low) (t0 + 6000) "0.m4n5b6v7"
           (t0 + 6000) Written H Hf).
Defined.

(** Instance of C10: the empty content added to the scenario. *)
Lemma C10_witness :
  JSMap.ok (reminders demo_store)
  /\ (let out := addReminder "" None (t0 + 7000) "0.e1f2g3h4" (t0 + 7000)
                   Written demo_store in
      let key := snd out in
      exists r,
        JSMap.get key (reminders (fst out)) = Some r
        /\ id r = key /\ content r = "" /\ status r = active
        /\ remindersFile (fst out) = Some (Json (persisted_form (reminders (fst out))))
        /\ (exists m, loadReminders (remindersFile (fst out)) = Some m
                      /\ JSMap.get key m = Some r)
        /\ In r (getReminders None (fst out))
        /\ In r (getReminders (Some (Priority_string (priority r))) (fst out))
        /\ (forall now2 w2, snd (completeReminder key now2 w2 (fst out)) = true)
        /\ (forall w2,
              snd (deleteReminder key w2 (fst out)) = true
              /\ JSMap.get key (reminders (fst (deleteReminder key w2 (fst out))))
                 = None)).
Proof.
  assert (H : JSMap.ok (reminders demo_store)) by (vm_compute; distinct_strings).
  split; [exact H|].
  exact (C10_empty_content_is_stored demo_store None (t0 + 7000) "0.e1f2g3h4"
           (t0 + 7000) H).
Defined.

(** Instance of C5: the scenario, then complete, delete and purge. *)
Lemma C5_witness :
  JSMap.ok (reminders empty_store)
  /\ fresh_adds (JSMap.keys (reminders empty_store)) (demo_calls ++ demo_followup)
  /\ (let s1 := run demo_calls empty_store in
      let s2 := run demo_followup s1 in
      (forall k r2, JSMap.get k (reminders s2) = Some r2 ->
         match JSMap.get k (reminders s1) with
         | Some r1 => evolves r1 r2
         | None => exists r1, newborn r1 /\ evolves r1 r2
         end)
      /\ (forall c k r1, fresh_adds (JSMap.keys (reminders s1)) [c] ->
            JSMap.get k (reminders s1) = Some r1 ->
            match JSMap.get k (reminders (exec c s1)) with
            | Some r2 => r2 = r1 \/ caused_by c k r1 r2
            | None => removal_call c k r1
            end)
      /\ (forall c k r2, fresh_adds (JSMap.keys (reminders s1)) [c] ->
            JSMap.get k (reminders s1) = None ->
            JSMap.get k (reminders (exec c s1)) = Some r2 ->
            newborn r2 /\ is_add_of c k)).
Proof.
  assert (H : JSMap.ok (reminders empty_store)) by (vm_compute; constructor).
  assert (Hf : fresh_adds (JSMap.keys (reminders empty_store))
                 (demo_calls ++ demo_followup)).
  { vm_compute. intuition discriminate. }
  split; [exact H|split; [exact Hf|]].
  exact (C5_status_is_one_way empty_store demo_calls demo_followup H Hf).
Defined.

(** C5 as stated fails: [addReminder] does not check the id it generates
    against the store. A call that generates the id of a completed record
    puts an active record with another content, another creation time
    and no completion time in its place. *)
Lemma C5_colliding_add_reactivates_completed :
  (exists r, JSMap.get instant_key (reminders instant_store) = Some r
             /\ status r = completed /\ content r = "A"
             /\ created r = "2023-11-14T22:13:20.000Z"
             /\ completed_at r = Some "2023-11-14T22:13:20.000Z")
  /\ (exists r', JSMap.get instant_key (reminders (exec colliding_add instant_store))
                 = Some r'
                 /\ status r' = active /\ content r' = "B"
                 /\ created r' = "2023-11-14T22:13:20.001Z"
                 /\ completed_at r' = None).
Proof.
  split; vm_compute; eexists; repeat split; reflexivity.
Qed.

(** The statuses "B" goes through in the scenario. *)
Example demo_lifecycle :
  option_map status (JSMap.get demo_key (reminders demo_store)) = Some active
  /\ option_map status (JSMap.get demo_key (reminders demo_completed)) = Some completed
  /\ snd (completeReminder demo_key (t0 + 3500) Written demo_completed) = false
  /\ success (snd (moveToNotes demo_key None (t0 + 3500) working_sink (t0 + 3500)
                     Written demo_completed)) = false
  /\ JSMap.get demo_key (reminders (run demo_followup demo_store)) = None.
Proof. repeat split; reflexivity. Qed.

(* ================================================================= *)
(** * Further properties: persistence across restarts *)

Section Restart.
Context {D : DateLib}.

Lemma keys_set_incl (key : string) (r : Reminder) (m : JSMap.t Reminder) k :
  In k (JSMap.keys (JSMap.set key r m)) -> k = key \/ In k (JSMap.keys m).
Proof.
  induction m as [|[k1 r1] m IH]; simpl.
  - intros [<-|[]]. now left.
  - destruct (String.eqb_spec k1 key) as [->|Hne]; simpl.
    + intros [<-|Hin]; auto.
    + intros [<-|Hin]; auto. destruct (IH Hin); auto.
Qed.

Lemma keys_filter_incl (P : string * Reminder -> bool) (m : JSMap.t Reminder) k :
  In k (JSMap.keys (filter P m)) -> In k (JSMap.keys m).
Proof.
  unfold JSMap.keys. intros Hin. apply in_map_iff in Hin.
  destruct Hin as (e & <- & He). apply filter_In in He. apply in_map. tauto.
Qed.

Lemma reminders_deleteReminder key w s :
  reminders (fst (deleteReminder key w s)) = JSMap.remove key (reminders s).
Proof.
  unfold deleteReminder, JSMap.delete. destruct (JSMap.has key (reminders s)); cbn [fst].
  - now rewrite reminders_saveReminders.
  - reflexivity.
Qed.

(** The keys after a call are keys from before, or the generated id. *)
Lemma exec_keys c s k :
  JSMap.ok (reminders s) ->
  In k (JSMap.keys (reminders (exec c s))) ->
  In k (JSMap.keys (reminders s)) \/ is_add_of c k.
Proof.
  intros Hok.
  destruct c as [c0 p now rnd now' w|f|key now w|key w|key note now sink now' w|days now w];
    cbn [exec is_add_of].
  - unfold addReminder. cbn [fst]. rewrite reminders_saveReminders.
    unfold with_reminders. cbn [reminders]. intros Hin.
    apply keys_set_incl in Hin. tauto.
  - auto.
  - unfold completeReminder.
    destruct (JSMap.get key (reminders s)) as [r|] eqn:Hget; [|auto].
    destruct (negb _); [auto|]. cbn [fst]. rewrite reminders_saveReminders.
    unfold with_reminders. cbn [reminders]. intros Hin.
    apply keys_set_incl in Hin. destruct Hin as [->|Hin]; [|auto].
    left. apply JSMapFacts.has_true. unfold JSMap.has. now rewrite Hget.
  - rewrite reminders_deleteReminder. intros Hin. left.
    eapply JSMapFacts.keys_remove_incl; eassumption.
  - unfold moveToNotes.
    destruct (JSMap.get key (reminders s)) as [r|] eqn:Hget; [|auto].
    destruct (negb _); [auto|].
    destruct (if dirExists sink then None else mkdirError sink); [auto|].
    destruct (writeError sink); [auto|]. cbn [fst].
    rewrite reminders_saveReminders. cbn [reminders]. intros Hin.
    apply keys_set_incl in Hin. destruct Hin as [->|Hin]; [|auto].
    left. apply JSMapFacts.has_true. unfold JSMap.has. now rewrite Hget.
  - destruct (reminders_clearOldReminders days now w s Hok) as [cutoff Hm].
    rewrite Hm. intros Hin. left. eapply keys_filter_incl; eassumption.
Qed.

Lemma exec_plain c s :
  JSMap.ok (reminders s) -> plain_keys (reminders s) ->
  plain_keys (reminders (exec c s)).
Proof.
  intros Hok Hp k Hin. apply exec_keys in Hin; [|assumption].
  destruct Hin as [Hin|Hadd]; [auto|].
  destruct c; simpl in Hadd; try contradiction. subst k.
  apply PersistFacts.reminder_id_not_index.
Qed.

Lemma synced_saveReminders s : synced (saveReminders Written s).
Proof. reflexivity. Qed.

(** A call whose write goes through either leaves the map in memory and
    the file as they were, or leaves in the file exactly the persisted
    form of the map in memory. *)
Lemma exec_sync (c : Call) (s : Store) :
  JSMap.ok (reminders s) ->
  let s' := exec (set_write Written c) s in
  (reminders s' = reminders s /\ remindersFile s' = remindersFile s)
  \/ synced s'.
Proof.
  intros Hok s'. subst s'.
  destruct c as [c0 p now rnd now' w|f|key now w|key w|key note now sink now' w|days now w];
    cbn [set_write exec].
  - right. unfold addReminder. cbn [fst]. apply synced_saveReminders.
  - now left.
  - unfold completeReminder.
    destruct (JSMap.get key (reminders s)) as [r|]; [|now left].
    destruct (negb _); [now left|]. right. cbn [fst]. apply synced_saveReminders.
  - unfold deleteReminder, JSMap.delete.
    destruct (JSMap.has key (reminders s)) eqn:Hhas; cbn [fst].
    + right. apply synced_saveReminders.
    + left. rewrite JSMapFacts.remove_absent; [now rewrite with_reminders_same|].
      intros Hin. apply JSMapFacts.has_true in Hin. congruence.
  - unfold moveToNotes.
    destruct (JSMap.get key (reminders s)) as [r|]; [|now left].
    destruct (negb _); [now left|].
    destruct (if dirExists sink then None else mkdirError sink); [now left|].
    destruct (writeError sink); [now left|]. right. cbn [fst].
    apply synced_saveReminders.
  - assert (H : forall d,
               (reminders (fst (clearOldReminders (Some d) now Written s)) = reminders s
                /\ remindersFile (fst (clearOldReminders (Some d) now Written s))
                   = remindersFile s)
               \/ synced (fst (clearOldReminders (Some d) now Written s))).
    { intros d. rewrite clearOldReminders_spec by assumption.
      destruct (Z.ltb_spec 0 (Z.of_nat (List.length
                  (filter (fun e => purgeable (now - d * 24 * 60 * 60 * 1000) (snd e))
                     (reminders s))))) as [Hlt|Hge]; cbn [fst].
      - right. apply synced_saveReminders.
      - left. rewrite filter_all_kept by lia. now rewrite with_reminders_same. }
    destruct days as [d|]; [apply H|apply (H 7)].
Qed.

Lemma exec_recoverable c s :
  JSMap.ok (reminders s) -> plain_keys (reminders s) -> recoverable s ->
  recoverable (exec (set_write Written c) s).
Proof.
  intros Hok Hp Hr.
  pose proof (exec_ok (set_write Written c) s Hok) as Hok'.
  pose proof (exec_plain (set_write Written c) s Hok Hp) as Hp'.
  destruct (exec_sync c s Hok) as [[Hm Hf]|Hs].
  - unfold recoverable. now rewrite Hf, Hm.
  - unfold recoverable. rewrite Hs, load_saved by assumption.
    f_equal. now apply PersistFacts.fromEntries_plain.
Qed.

Lemma run_recoverable calls : forall s,
  JSMap.ok (reminders s) -> plain_keys (reminders s) ->
  ((reminders s = [] /\ remindersFile s = None) \/ synced s) ->
  recoverable s ->
  let s' := run (map (set_write Written) calls) s in
  JSMap.ok (reminders s') /\ plain_keys (reminders s')
  /\ ((reminders s' = [] /\ remindersFile s' = None) \/ synced s')
  /\ recoverable s'.
Proof.
  induction calls as [|c rest IH]; intros s Hok Hp Hs Hr; [simpl; auto|].
  cbn [map]. change (run (set_write Written c :: map (set_write Written) rest) s)
    with (run (map (set_write Written) rest) (exec (set_write Written c) s)).
  apply IH.
  - now apply exec_ok.
  - now apply exec_plain.
  - destruct (exec_sync c s Hok) as [[Hm Hf]|Hsync]; [|now right].
    rewrite Hm, Hf. destruct Hs as [Hs|Hs]; [now left|right].
    unfold synced in *. now rewrite Hf, Hm.
  - now apply exec_recoverable.
Qed.

(** X2. With a disk that accepts every write, after any sequence of calls
    on a store started without a file, either nothing has been stored and
    no file exists, or the file holds exactly the persisted form of the
    map in memory; in both cases a process started on the file finds the
    same map, in the same order. *)
Theorem X2_restart_finds_the_same_store (calls : list Call) :
  let s := run (map (set_write Written) calls) empty_store in
  ((reminders s = [] /\ remindersFile s = None) \/ synced s)
  /\ ReminderManager_new (remindersFile s) (notesDir s) = Some s.
Proof.
  intros s.
  destruct (@run_recoverable calls empty_store) as (_ & _ & Hs & Hr).
  - constructor.
  - intros k [].
  - now left.
  - reflexivity.
  - fold s in Hs, Hr. split; [exact Hs|].
    unfold ReminderManager_new. unfold recoverable in Hr. rewrite Hr.
    now destruct s.
Qed.
End Restart.

(* ================================================================= *)
(** * Further properties: the algebra of listings *)

Module SortFilter.
Section Facts.
Variable A : Type.
Variable comparefn : A -> A -> JSNum.
Local Abbreviation below := (sorts_before comparefn).

Lemma sort_insert_first x l :
  (forall y, In y l -> below x y) -> sort_insert comparefn x l = x :: l.
Proof.
  destruct l as [|y l]; [reflexivity|]. intros H. simpl.
  specialize (H y (or_introl eq_refl)). unfold sorts_before in H.
  destruct (Z.leb_spec (SortCompare comparefn x y) 0); [reflexivity|lia].
Qed.

(** Inserting into a sorted list and then filtering is filtering and then
    inserting. *)
Lemma filter_sort_insert_sorted (P : A -> bool) x l :
  StronglySorted below l ->
  (forall y z, In y l -> In z l -> below x y -> below y z -> below x z) ->
  filter P (sort_insert comparefn x l)
  = if P x then sort_insert comparefn x (filter P l) else filter P l.
Proof.
  induction l as [|y l IH]; intros Hs Htr.
  - simpl. now destruct (P x).
  - inversion Hs as [|? ? Hs' Hall]; subst. rewrite Forall_forall in Hall.
    cbn [sort_insert].
    destruct (Z.leb_spec (SortCompare comparefn x y) 0) as [Hle|Hgt].
    + cbn [filter]. destruct (P x) eqn:Hx; [|reflexivity].
      symmetry. apply sort_insert_first.
      intros z Hz.
      assert (Hz' : In z (y :: l)).
      { destruct (P y); [destruct Hz as [<-|Hz]; [now left|right]|right];
          apply filter_In in Hz; tauto. }
      destruct Hz' as [<-|Hz']; [exact Hle|].
      apply Htr with y; [now left|now right|exact Hle|now apply Hall].
    + cbn [filter]. rewrite IH; [|assumption|].
      * destruct (P x) eqn:Hx; destruct (P y) eqn:Hy; try reflexivity.
        cbn [sort_insert].
        destruct (Z.leb_spec (SortCompare comparefn x y) 0); [lia|reflexivity].
      * intros u v Hu Hv. apply Htr; now right.
Qed.

(** Where the comparator is total and transitive, sorting commutes with
    filtering. *)
Lemma Array_sort_filter (P : A -> bool) l :
  (forall x y, In x l -> In y l -> ~ below x y -> below y x) ->
  (forall x y z, In x l -> In y l -> In z l -> below x y -> below y z -> below x z) ->
  filter P (Array_sort comparefn l) = Array_sort comparefn (filter P l).
Proof.
  induction l as [|x l IH]; intros Htot Htr; [reflexivity|].
  cbn [Array_sort fold_right]. fold (Array_sort comparefn l).
  rewrite filter_sort_insert_sorted.
  - rewrite IH.
    + cbn [filter]. now destruct (P x).
    + intros y z Hy Hz. apply Htot; now right.
    + intros y z u Hy Hz Hu. apply Htr; now right.
  - apply SortFacts.Array_sort_sorted.
    + intros y z Hy Hz. apply Htot; now right.
    + intros y z u Hy Hz Hu. apply Htr; now right.
  - intros y z Hy Hz. apply SortFacts.Array_sort_incl in Hy, Hz.
    apply Htr; [now left|now right|now right].
Qed.
End Facts.

Lemma filter_comm (A : Type) (P Q : A -> bool) l :
  filter P (filter Q l) = filter Q (filter P l).
Proof.
  induction l as [|x l IH]; simpl; [reflexivity|].
  destruct (P x) eqn:Hp, (Q x) eqn:Hq; simpl; rewrite ?Hp, ?Hq, IH; reflexivity.
Qed.

Lemma filter_id (A : Type) (P : A -> bool) l :
  (forall x, In x l -> P x = true) -> filter P l = l.
Proof.
  induction l as [|x l IH]; intros H; simpl; [reflexivity|].
  rewrite (H x (or_introl eq_refl)). f_equal. apply IH. intros; apply H; now right.
Qed.

Lemma filter_none (A : Type) (P : A -> bool) l :
  (forall x, In x l -> P x = false) -> filter P l = [].
Proof.
  induction l as [|x l IH]; intros H; simpl; [reflexivity|].
  rewrite (H x (or_introl eq_refl)). apply IH. intros; apply H; now right.
Qed.
End SortFilter.

Section ListingAlgebra.
Context {D : DateLib}.

(** [getReminders] for any filter argument: sort what passes among the
    active values. *)
Lemma getReminders_passes flt s :
  getReminders flt s
  = Array_sort compareReminders
      (filter (passes flt) (filter is_active (JSMap.values (reminders s)))).
Proof.
  unfold getReminders, passes. f_equal.
  destruct (String.eqb (match flt with Some f => f | None => "all" end) "all");
    simpl; [|reflexivity].
  symmetry. now apply SortFilter.filter_id.
Qed.

Lemma dated_passing flt (m : JSMap.t Reminder) r :
  dated m ->
  In r (filter (passes flt) (filter is_active (JSMap.values m))) ->
  exists t, created_time r = Num t.
Proof.
  intros Hd Hin. apply filter_In in Hin. destruct Hin as [Hin _].
  apply filter_In in Hin. destruct Hin as [Hin Hact].
  apply Hd; [assumption|]. now apply Status_eqb_eq.
Qed.

Lemma compare_total (l : list Reminder) :
  (forall r, In r l -> exists t, created_time r = Num t) ->
  forall a b, In a l -> In b l ->
    ~ sorts_before compareReminders a b -> sorts_before compareReminders b a.
Proof.
  intros Hw a b Ha Hb. unfold sorts_before.
  destruct (Hw a Ha) as [ta Hta], (Hw b Hb) as [tb Htb].
  rewrite (SortCompare_dated _ _ Hta Htb), (SortCompare_dated _ _ Htb Hta).
  destruct (Z.eqb_spec (priorityOrder (priority a) - priorityOrder (priority b)) 0);
    destruct (Z.eqb_spec (priorityOrder (priority b) - priorityOrder (priority a)) 0);
    lia.
Qed.

Lemma compare_trans (l : list Reminder) :
  (forall r, In r l -> exists t, created_time r = Num t) ->
  forall a b c, In a l -> In b l -> In c l ->
    sorts_before compareReminders a b -> sorts_before compareReminders b c ->
    sorts_before compareReminders a c.
Proof.
  intros Hw a b c Ha Hb Hc. unfold sorts_before.
  destruct (Hw a Ha) as [ta Hta], (Hw b Hb) as [tb Htb], (Hw c Hc) as [tc Htc].
  rewrite (SortCompare_dated _ _ Hta Htb), (SortCompare_dated _ _ Htb Htc),
    (SortCompare_dated _ _ Hta Htc).
  destruct (Z.eqb_spec (priorityOrder (priority a) - priorityOrder (priority b)) 0);
    destruct (Z.eqb_spec (priorityOrder (priority b) - priorityOrder (priority c)) 0);
    destruct (Z.eqb_spec (priorityOrder (priority a) - priorityOrder (priority c)) 0);
    lia.
Qed.

(** On dated records, filtering a listing is listing the filtered
    records. *)
Lemma listing_filter (P : Reminder -> bool) flt s :
  dated (reminders s) ->
  filter P (getReminders flt s)
  = Array_sort compareReminders
      (filter P (filter (passes flt) (filter is_active (JSMap.values (reminders s))))).
Proof.
  intros Hd. rewrite getReminders_passes.
  apply SortFilter.Array_sort_filter.
  - apply compare_total. intros r Hr. eapply dated_passing; eassumption.
  - apply compare_trans. intros r Hr. eapply dated_passing; eassumption.
Qed.

Lemma priority_listing (s : Store) (p : Priority) :
  dated (reminders s) ->
  getReminders (Some (Priority_string p)) s
  = filter (of_priority p) (getReminders None s).
Proof.
  intros Hd. rewrite listing_filter by assumption.
  rewrite getReminders_passes. f_equal.
  rewrite (SortFilter.filter_id (passes None)) by reflexivity.
  apply filter_ext. intros r. unfold passes, of_priority.
  rewrite Priority_string_not_all. apply Priority_string_eqb.
Qed.

(** A list sorted by priority rank is its high records, then its normal
    records, then its low records. *)
Lemma rank_blocks (R : Reminder -> Reminder -> Prop) (l : list Reminder) :
  (forall a b, In a l -> In b l -> R a b ->
     priorityOrder (priority a) <= priorityOrder (priority b)) ->
  StronglySorted R l ->
  l = (filter (of_priority high) l ++ filter (of_priority normal) l
       ++ filter (of_priority low) l)%list.
Proof.
  induction l as [|x l IH]; intros Hrank Hs; [reflexivity|].
  inversion Hs as [|? ? Hs' Hall]; subst. rewrite Forall_forall in Hall.
  assert (Hx : forall y, In y l ->
             priorityOrder (priority x) <= priorityOrder (priority y)).
  { intros y Hy. apply Hrank; [now left|now right|now apply Hall]. }
  assert (IH' := IH (fun a b Ha Hb => Hrank a b (or_intror Ha) (or_intror Hb)) Hs').
  assert (E : forall q, of_priority q x = Priority_eqb (priority x) q) by reflexivity.
  cbn [filter]. rewrite !E.
  destruct (priority x) eqn:Hp; cbn [Priority_eqb].
  - simpl. now f_equal.
  - assert (Hh : filter (of_priority high) l = []).
    { apply SortFilter.filter_none. intros y Hy. specialize (Hx y Hy).
      unfold of_priority. destruct (priority y); simpl in *; [lia|reflexivity|reflexivity]. }
    rewrite Hh in *. simpl. now f_equal.
  - assert (Hh : filter (of_priority high) l = []).
    { apply SortFilter.filter_none. intros y Hy. specialize (Hx y Hy).
      unfold of_priority. destruct (priority y); simpl in *; [lia|reflexivity|reflexivity]. }
    assert (Hn : filter (of_priority normal) l = []).
    { apply SortFilter.filter_none. intros y Hy. specialize (Hx y Hy).
      unfold of_priority. destruct (priority y); simpl in *; [lia|lia|reflexivity]. }
    rewrite Hh, Hn in *. simpl. now f_equal.
Qed.

(** X3. On dated records, the listing for a priority is the full listing
    restricted to that priority, in the same order, and the full listing
    is the high listing followed by the normal listing followed by the
    low listing. *)
Theorem X3_full_listing_is_high_normal_low (s : Store) :
  dated (reminders s) ->
  (forall p, getReminders (Some (Priority_string p)) s
             = filter (of_priority p) (getReminders None s))
  /\ getReminders None s
     = (getReminders (Some "high") s ++ getReminders (Some "normal") s
        ++ getReminders (Some "low") s)%list.
Proof.
  intros Hd. split; [intros p; now apply priority_listing|].
  change (getReminders None s
          = (getReminders (Some (Priority_string high)) s
             ++ getReminders (Some (Priority_string normal)) s
             ++ getReminders (Some (Priority_string low)) s)%list).
  rewrite (priority_listing s high Hd), (priority_listing s normal Hd),
    (priority_listing s low Hd).
  assert (Hw : forall r, In r (filter (passes None)
                                 (filter is_active (JSMap.values (reminders s)))) ->
                         exists t, created_time r = Num t)
    by (intros r Hr; eapply dated_passing; eassumption).
  apply rank_blocks with (R := sorts_before compareReminders).
  - intros a b Ha Hb. rewrite getReminders_passes in Ha, Hb.
    apply SortFacts.Array_sort_incl in Ha, Hb.
    destruct (Hw a Ha) as [ta Hta], (Hw b Hb) as [tb Htb].
    unfold sorts_before. rewrite (SortCompare_dated _ _ Hta Htb).
    destruct (Z.eqb_spec (priorityOrder (priority a) - priorityOrder (priority b)) 0); lia.
  - rewrite getReminders_passes. apply SortFacts.Array_sort_sorted.
    + now apply compare_total.
    + now apply compare_trans.
Qed.

End ListingAlgebra.

(* ================================================================= *)
(** * Further properties: what each operation does to the listings *)

Section ListingEffects.
Context {D : DateLib}.

Lemma active_values_unpurged cutoff (m : JSMap.t Reminder) :
  filter is_active
    (JSMap.values (filter (fun e => negb (purgeable cutoff (snd e))) m))
  = filter is_active (JSMap.values m).
Proof.
  induction m as [|[k r] m IH]; [reflexivity|].
  cbn [filter snd]. destruct (purgeable cutoff r) eqn:Hp; cbn [negb].
  - unfold JSMap.values in *. cbn [map snd filter]. rewrite IH.
    unfold purgeable in Hp. apply andb_true_iff in Hp. destruct Hp as [Hp _].
    unfold is_active at 2. apply negb_true_iff in Hp. now rewrite Hp.
  - unfold JSMap.values in *. cbn [map snd filter]. now rewrite IH.
Qed.

(** X4. A purge never changes a listing: for every filter, day count and
    clock reading, [getReminders] returns the same list before and after
    [clearOldReminders]. *)
Theorem X4_purge_leaves_listings_alone (s : Store) (days : option Z) (now : Z)
    (w : WriteResult FileContent) (flt : option string) :
  JSMap.ok (reminders s) ->
  getReminders flt (fst (clearOldReminders days now w s)) = getReminders flt s.
Proof.
  intros Hok. rewrite !getReminders_passes.
  destruct (reminders_clearOldReminders days now w s Hok) as [cutoff Hm].
  now rewrite Hm, active_values_unpurged.
Qed.

Lemma no_record_of_absent_key key (m : JSMap.t Reminder) :
  keyed_by_id m -> ~ In key (JSMap.keys m) ->
  filter (other_id key) (filter is_active (JSMap.values m))
  = filter is_active (JSMap.values m).
Proof.
  intros [_ Hid] Hn. apply SortFilter.filter_id. intros r Hr.
  apply filter_In in Hr. destruct Hr as [Hr _].
  apply JSMapFacts.In_values_get in Hr. destruct Hr as [k Hin].
  unfold other_id. apply negb_true_iff. apply String.eqb_neq.
  intros E. apply Hn. rewrite <- E, (Hid _ _ Hin).
  change k with (fst (k, r)). now apply in_map.
Qed.

Lemma keyed_tail k r (m : JSMap.t Reminder) :
  keyed_by_id ((k, r) :: m) ->
  id r = k /\ ~ In k (JSMap.keys m) /\ keyed_by_id m.
Proof.
  intros [Hok Hid]. inversion Hok as [|? ? Hn Hnd]; subst.
  split; [apply Hid; now left|]. split; [exact Hn|].
  split; [exact Hnd|]. intros k' r' Hin. apply Hid. now right.
Qed.

(** Overwriting the entry of [key] with a record that is not active
    removes from the active values exactly the records with that id. *)
Lemma active_values_set_inactive key r' (m : JSMap.t Reminder) :
  keyed_by_id m -> status r' <> active ->
  filter is_active (JSMap.values (JSMap.set key r' m))
  = filter (other_id key) (filter is_active (JSMap.values m)).
Proof.
  intros Hk Hst.
  assert (Hr' : is_active r' = false).
  { unfold is_active. destruct (status r'); simpl; congruence. }
  induction m as [|[k1 r1] m IH].
  - simpl. now rewrite Hr'.
  - destruct (keyed_tail Hk) as (Hid1 & Hn & Hk').
    cbn [JSMap.set]. destruct (String.eqb_spec k1 key) as [->|Hne].
    + unfold JSMap.values. cbn [map snd filter]. rewrite Hr'.
      fold (JSMap.values m).
      assert (Ho : other_id key r1 = false).
      { unfold other_id. rewrite Hid1, String.eqb_refl. reflexivity. }
      destruct (is_active r1); cbn [filter]; rewrite ?Ho;
        symmetry; now apply no_record_of_absent_key.
    + unfold JSMap.values in *. cbn [map snd filter].
      assert (Ho : other_id key r1 = true).
      { unfold other_id. rewrite Hid1. apply negb_true_iff.
        now apply String.eqb_neq. }
      destruct (is_active r1); cbn [filter]; rewrite ?Ho, IH; auto.
Qed.

Lemma active_values_remove key (m : JSMap.t Reminder) :
  keyed_by_id m ->
  filter is_active (JSMap.values (JSMap.remove key m))
  = filter (other_id key) (filter is_active (JSMap.values m)).
Proof.
  intros Hk. induction m as [|[k1 r1] m IH]; [reflexivity|].
  destruct (keyed_tail Hk) as (Hid1 & Hn & Hk').
  cbn [JSMap.remove]. destruct (String.eqb_spec k1 key) as [->|Hne].
  - unfold JSMap.values. cbn [map snd filter]. fold (JSMap.values m).
    assert (Ho : other_id key r1 = false).
    { unfold other_id. rewrite Hid1, String.eqb_refl. reflexivity. }
    destruct (is_active r1); cbn [filter]; rewrite ?Ho;
      symmetry; now apply no_record_of_absent_key.
  - unfold JSMap.values in *. cbn [map snd filter].
    assert (Ho : other_id key r1 = true).
    { unfold other_id. rewrite Hid1. apply negb_true_iff.
      now apply String.eqb_neq. }
    destruct (is_active r1); cbn [filter]; rewrite ?Ho, IH; auto.
Qed.

(** A store whose active values lose exactly the records of [key] lists
    what it listed before, without those records and in the same order. *)
Lemma listing_without key flt (s s' : Store) :
  dated (reminders s) ->
  filter is_active (JSMap.values (reminders s'))
  = filter (other_id key) (filter is_active (JSMap.values (reminders s))) ->
  getReminders flt s' = filter (other_id key) (getReminders flt s).
Proof.
  intros Hd Hv. rewrite listing_filter by assumption.
  rewrite getReminders_passes, Hv. f_equal. apply SortFilter.filter_comm.
Qed.

(** X5. In a store keyed by id with dated records, deleting an id
    changes every listing by removing the records of that id and nothing
    else: the order of the others is kept, and a listing without that id
    is unchanged. *)
Theorem X5_delete_removes_one_from_listings (s : Store) (key : string)
    (w : WriteResult FileContent) (flt : option string) :
  keyed_by_id (reminders s) -> dated (reminders s) ->
  getReminders flt (fst (deleteReminder key w s))
  = filter (other_id key) (getReminders flt s).
Proof.
  intros Hk Hd. apply listing_without; [assumption|].
  rewrite reminders_deleteReminder. now apply active_values_remove.
Qed.

(** X6. In a store keyed by id with dated records, a completion that
    succeeds and a move to notes that succeeds change every listing by
    removing the records of that id and nothing else. *)
Theorem X6_complete_and_move_remove_one_from_listings (s : Store) (key : string)
    (note : option string) (now : Z) (sink : SinkEnv) (now' : Z)
    (w : WriteResult FileContent) (flt : option string) :
  keyed_by_id (reminders s) -> dated (reminders s) ->
  (snd (completeReminder key now w s) = true ->
   getReminders flt (fst (completeReminder key now w s))
   = filter (other_id key) (getReminders flt s))
  /\ (success (snd (moveToNotes key note now sink now' w s)) = true ->
      getReminders flt (fst (moveToNotes key note now sink now' w s))
      = filter (other_id key) (getReminders flt s)).
Proof.
  intros Hk Hd. split.
  - unfold completeReminder.
    destruct (JSMap.get key (reminders s)) as [r|]; [|discriminate].
    destruct (negb _); [discriminate|]. cbn [fst snd]. intros _.
    apply listing_without; [assumption|].
    rewrite reminders_saveReminders. unfold with_reminders. cbn [reminders].
    apply active_values_set_inactive; [assumption|]. simpl. discriminate.
  - unfold moveToNotes.
    destruct (JSMap.get key (reminders s)) as [r|]; [|discriminate].
    destruct (negb _); [discriminate|].
    destruct (if dirExists sink then None else mkdirError sink); [discriminate|].
    destruct (writeError sink); [discriminate|]. cbn [fst snd]. intros _.
    apply listing_without; [assumption|].
    rewrite reminders_saveReminders. cbn [reminders].
    apply active_values_set_inactive; [assumption|]. simpl. discriminate.
Qed.
End ListingEffects.

(* ================================================================= *)
(** * Further properties: generated ids *)


Module IdFacts.

Lemma append_cancel (a x y : string) : a ++ x = a ++ y -> x = y.
Proof. induction a as [|c a IH]; simpl; [auto|]. intros [= H]. auto. Qed.

Lemma split_head_uint (d : Decimal.uint) (x : string) :
  split_head "_" (NilEmpty.string_of_uint d ++ String "_" x)
  = NilEmpty.string_of_uint d.
Proof.
  induction d; simpl; rewrite ?IHd; reflexivity.
Qed.

(** The decimal rendering of an integer holds no underscore: it is what
    comes before the first underscore of whatever follows it. *)
Lemma split_head_Z (n : Z) (x : string) :
  split_head "_" (Z_to_string n ++ String "_" x) = Z_to_string n.
Proof.
  unfold Z_to_string, NilZero.string_of_int, NilZero.string_of_uint.
  destruct (Z.to_int n) as [d|d]; destruct d; simpl;
    rewrite ?split_head_uint; reflexivity.
Qed.

Lemma Z_to_string_inj (n n' : Z) : Z_to_string n = Z_to_string n' -> n = n'.
Proof.
  unfold Z_to_string. intros H.
  assert (Hn : forall z, Z.to_int z <> Decimal.Pos Decimal.Nil
                         /\ Z.to_int z <> Decimal.Neg Decimal.Nil).
  { intros [|p|p]; simpl; split; try discriminate;
      intros [= E]; exact (DecimalPos.Unsigned.to_uint_nonnil p E). }
  assert (E : Some (Z.to_int n) = Some (Z.to_int n')).
  { rewrite <- (NilZero.isi (Z.to_int n)), <- (NilZero.isi (Z.to_int n'));
      try apply Hn. now rewrite H. }
  injection E as E. rewrite <- (DecimalZ.of_to n), <- (DecimalZ.of_to n'). now rewrite E.
Qed.
End IdFacts.

(** X7. Two generated ids are equal exactly when they were generated at
    the same clock reading with the same five-character random suffix:
    ids generated in different milliseconds never collide. *)
Theorem X7_ids_differ_across_milliseconds (now now2 : Z) (rnd rnd2 : string) :
  reminder_id now rnd = reminder_id now2 rnd2
  <-> now = now2 /\ substr 2 5 rnd = substr 2 5 rnd2.
Proof.
  unfold reminder_id. split.
  - intros H. apply (IdFacts.append_cancel "rem_") in H.
    assert (Hn : Z_to_string now = Z_to_string now2).
    { rewrite <- (IdFacts.split_head_Z now (substr 2 5 rnd)),
        <- (IdFacts.split_head_Z now2 (substr 2 5 rnd2)).
      change (String "_" (substr 2 5 rnd)) with ("_" ++ substr 2 5 rnd).
      change (String "_" (substr 2 5 rnd2)) with ("_" ++ substr 2 5 rnd2).
      now rewrite H. }
    split; [now apply IdFacts.Z_to_string_inj|].
    rewrite Hn in H. apply IdFacts.append_cancel in H.
    now apply (IdFacts.append_cancel "_") in H.
  - intros [-> ->]. reflexivity.
Qed.

(* ================================================================= *)
(** * Further properties: how the operations compose *)

Section Composition.
Context {D : DateLib}.

(** X8. Deleting the id that [addReminder] has just returned undoes the
    addition when that id was not in use: the deletion succeeds and the
    map is the one from before, in the same order. *)
Theorem X8_delete_undoes_add (s : Store) (c : string) (p : option Priority)
    (now : Z) (rnd : string) (now' : Z) (w w' : WriteResult FileContent) :
  ~ In (reminder_id now rnd) (JSMap.keys (reminders s)) ->
  let added := addReminder c p now rnd now' w s in
  let deleted := deleteReminder (snd added) w' (fst added) in
  snd deleted = true /\ reminders (fst deleted) = reminders s.
Proof.
  intros Hfresh added deleted. subst deleted added.
  unfold addReminder. cbn [fst snd].
  set (r := mkReminder _ _ _ _ _ _).
  assert (Hm : reminders (saveReminders w
                 (with_reminders (JSMap.set (reminder_id now rnd) r (reminders s)) s))
               = (reminders s ++ [(reminder_id now rnd, r)])%list).
  { rewrite reminders_saveReminders. unfold with_reminders. cbn [reminders].
    now apply JSMapFacts.set_absent. }
  split.
  - unfold deleteReminder, JSMap.delete, JSMap.has. rewrite Hm.
    assert (Hget : JSMap.get (reminder_id now rnd)
                     (reminders s ++ [(reminder_id now rnd, r)])%list = Some r).
    { rewrite <- JSMapFacts.set_absent by assumption. apply JSMapFacts.get_set_same. }
    now rewrite Hget.
  - rewrite reminders_deleteReminder, Hm, JSMapFacts.remove_middle by assumption.
    apply app_nil_r.
Qed.

Lemma purgeable_mono cutoff cutoff' r :
  cutoff' <= cutoff -> purgeable cutoff' r = true -> purgeable cutoff r = true.
Proof.
  unfold purgeable. intros Hle H. apply andb_true_iff in H. destruct H as [Hst Hlt].
  rewrite Hst. simpl. destruct (created_time r) as [t|]; simpl in *; [|discriminate].
  apply Z.ltb_lt in Hlt. apply Z.ltb_lt. lia.
Qed.

(** X9. After a purge, a purge with the same or an earlier cutoff finds
    nothing: it returns 0 and leaves the store, file included, as it
    is. *)
Theorem X9_second_purge_finds_nothing (s : Store) (days days2 now now2 : Z)
    (w w2 : WriteResult FileContent) :
  JSMap.ok (reminders s) ->
  now2 - days2 * 86400 * 1000 <= now - days * 86400 * 1000 ->
  let s1 := fst (clearOldReminders (Some days) now w s) in
  clearOldReminders (Some days2) now2 w2 s1 = (s1, 0).
Proof.
  intros Hok Hle s1.
  assert (Hm : reminders s1
               = filter (fun e => negb (purgeable (now - days * 24 * 60 * 60 * 1000) (snd e)))
                   (reminders s)).
  { subst s1. rewrite clearOldReminders_spec by assumption.
    destruct (0 <? _); cbn [fst]; now rewrite ?reminders_saveReminders. }
  assert (Hok1 : JSMap.ok (reminders s1)) by (rewrite Hm; now apply JSMapFacts.ok_filter).
  assert (Hnone : filter (fun e => purgeable (now2 - days2 * 24 * 60 * 60 * 1000) (snd e))
                    (reminders s1) = []).
  { apply SortFilter.filter_none. intros e He. rewrite Hm in He.
    apply filter_In in He. destruct He as [_ He].
    destruct (purgeable (now2 - days2 * 24 * 60 * 60 * 1000) (snd e)) eqn:Hp;
      [|reflexivity].
    apply (@purgeable_mono (now - days * 24 * 60 * 60 * 1000)) in Hp; [|lia].
    rewrite Hp in He. discriminate. }
  rewrite clearOldReminders_spec by assumption. rewrite Hnone. cbn [List.length Z.of_nat].
  cbn [Z.ltb Z.compare]. rewrite filter_all_kept by now rewrite Hnone.
  now rewrite with_reminders_same.
Qed.

(** X10. Every operation, and so every sequence of calls, keeps a store
    keyed by id keyed by id: no id twice, each record under its own
    id. *)
Theorem X10_calls_keep_store_keyed_by_id (calls : list Call) (s : Store) :
  keyed_by_id (reminders s) -> keyed_by_id (reminders (run calls s)).
Proof.
  revert s. induction calls as [|c rest IH]; intros s Hk; [exact Hk|].
  change (run (c :: rest) s) with (run rest (exec c s)).
  apply IH. now apply exec_keyed.
Qed.

(** X11. Completion and move exclude each other: once [completeReminder]
    has succeeded on an id, [moveToNotes] on it is refused with the
    not-found message and changes neither store nor archive; once
    [moveToNotes] has succeeded, [completeReminder] returns false and
    changes nothing. *)
Theorem X11_complete_and_move_exclude_each_other (s : Store) (key : string)
    (note : option string) (now now2 now3 : Z) (sink : SinkEnv)
    (w w2 : WriteResult FileContent) :
  (snd (completeReminder key now w s) = true ->
   moveToNotes key note now2 sink now3 w2 (fst (completeReminder key now w s))
   = (fst (completeReminder key now w s),
      mkMoveResult false "Reminder not found or already processed"))
  /\ (success (snd (moveToNotes key note now sink now2 w s)) = true ->
      completeReminder key now3 w2 (fst (moveToNotes key note now sink now2 w s))
      = (fst (moveToNotes key note now sink now2 w s), false)).
Proof.
  split.
  - unfold completeReminder at 1 2 3.
    destruct (JSMap.get key (reminders s)) as [r|]; [|discriminate].
    destruct (negb _); [discriminate|]. cbn [fst snd]. intros _.
    apply moveToNotes_refused. rewrite reminders_saveReminders.
    unfold with_reminders. cbn [reminders]. rewrite JSMapFacts.get_set_same.
    intros r0 [= <-]. simpl. discriminate.
  - unfold moveToNotes at 1 2 3.
    destruct (JSMap.get key (reminders s)) as [r|]; [|discriminate].
    destruct (negb _); [discriminate|].
    destruct (if dirExists sink then None else mkdirError sink); [discriminate|].
    destruct (writeError sink); [discriminate|]. cbn [fst snd]. intros _.
    apply completeReminder_refused. rewrite reminders_saveReminders.
    cbn [reminders]. rewrite JSMapFacts.get_set_same.
    intros r0 [= <-]. simpl. discriminate.
Qed.
End Composition.

(* ================================================================= *)
(** * Further properties: the request handler *)

Section Requests.
Context {D : DateLib}.

Lemma handle_unknown name args e s :
  ~ In name (map tool_name tools) ->
  handle name args e s = (s, unknown_tool name).
Proof.
  intros Hn. unfold handle.
  repeat match goal with
  | |- context [String.eqb name ?t] =>
      destruct (String.eqb_spec name t) as [->|_];
      [exfalso; apply Hn; simpl; tauto|]
  end.
  reflexivity.
Qed.

Lemma moveToNotes_message key note now sink now' w s :
  let m := message (snd (moveToNotes key note now sink now' w s)) in
  m = "Reminder not found or already processed"
  \/ (exists e, m = "Error moving to notes: " ++ e)
  \/ m = "Moved to notes: " ++ note_filename now' key.
Proof.
  unfold moveToNotes.
  destruct (JSMap.get key (reminders s)) as [r|]; [|now left].
  destruct (negb _); [now left|].
  destruct (if dirExists sink then None else mkdirError sink) as [e|];
    [right; left; now exists e|].
  destruct (writeError sink) as [e|]; [right; left; now exists e|].
  right. right. reflexivity.
Qed.

(** X12. The tools announced to the client are exactly the names the
    handler has a case for: a request for an announced tool that carries
    arguments is never answered with the unknown-tool error, and a
    request for any other name is answered with that error and leaves
    the store untouched. *)
Theorem X12_announced_tools_are_the_handled_ones (name : string) :
  (In name (map tool_name tools)
   <-> forall a e s, snd (handle name (Some a) e s) <> unknown_tool name)
  /\ (~ In name (map tool_name tools) ->
      forall args e s, handle name args e s = (s, unknown_tool name)).
Proof.
  split; [split|].
  - intros Hin a e s. simpl in Hin.
    destruct Hin as [<-|[<-|[<-|[<-|[<-|[<-|[<-|[]]]]]]]]; unfold handle; cbn [String.eqb Ascii.eqb Bool.eqb].
    + unfold addReminder. simpl. discriminate.
    + destruct (getReminders (arg_filter a) s); simpl; discriminate.
    + destruct (completeReminder (arg_id a) (clock e) (disk e) s) as [s' [|]];
        simpl; discriminate.
    + destruct (deleteReminder (arg_id a) (disk e) s) as [s' [|]];
        simpl; discriminate.
    + pose proof (moveToNotes_message (arg_id a) (arg_note a) (clock e) (archive e)
                    (clock' e) (disk e) s) as Hm.
      destruct (moveToNotes (arg_id a) (arg_note a) (clock e) (archive e)
                  (clock' e) (disk e) s) as [s' res].
      cbn [snd] in *. destruct Hm as [Hm|[[x Hm]|Hm]]; rewrite Hm;
        simpl; discriminate.
    + destruct (clearOldReminders (arg_days a) (clock e) (disk e) s) as [s' n].
      simpl. discriminate.
    + simpl. discriminate.
  - intros H.
    destruct (in_dec string_dec name (map tool_name tools)) as [Hin|Hn]; [exact Hin|].
    exfalso.
    apply (H (mkArgs "" None None "" None None)
             (mkEnv 0 0 "" (mkSinkEnv true None None) Written "") empty_store).
    now rewrite handle_unknown.
  - intros Hn args e s. now apply handle_unknown.
Qed.

Lemma Array_sort_nil_iff (l : list Reminder) :
  Array_sort compareReminders l = [] <-> l = [].
Proof.
  split; [|intros ->; reflexivity].
  intros H. apply Permutation_nil.
  rewrite <- H. apply SortFacts.Array_sort_perm.
Qed.

(** X14. [check_reminders] never changes the store, and it answers "No
    active reminders." exactly when no active record passes the filter;
    otherwise its text starts with the heading and ends with the
    footer. *)
Theorem X14_check_reminders_reports_emptiness (a : Args) (e : Env) (s : Store) :
  let out := handle "check_reminders" (Some a) e s in
  fst out = s
  /\ (snd out = "No active reminders."
      <-> filter (passes (arg_filter a))
            (filter is_active (JSMap.values (reminders s))) = [])
  /\ (snd out <> "No active reminders." ->
      snd out
      = "Active reminders:" ++ newline ++ newline
        ++ join (newline ++ newline)
             (map format_reminder (getReminders (arg_filter a) s))
        ++ newline ++ newline ++ PROTOCOL_FOOTER).
Proof.
  intros out. subst out. unfold handle. cbn [String.eqb Ascii.eqb Bool.eqb].
  rewrite <- Array_sort_nil_iff, <- getReminders_passes.
  destruct (getReminders (arg_filter a) s) as [|r l]; cbn [fst snd].
  - split; [reflexivity|]. split; [tauto|]. intros H. now contradiction H.
  - split; [reflexivity|]. split; [|reflexivity].
    split; [simpl; discriminate|discriminate].
Qed.

(** X15. [complete_reminder] answers "marked as completed" exactly when
    the id was stored with an active record; in every other case,
    including an id that is stored with a completed or moved record, it
    answers "not found" and leaves the store as it is. *)
Theorem X15_complete_reply_reflects_activity (a : Args) (e : Env) (s : Store) :
  let out := handle "complete_reminder" (Some a) e s in
  ((exists r, JSMap.get (arg_id a) (reminders s) = Some r /\ status r = active)
   -> snd out = "Reminder " ++ arg_id a ++ " marked as completed.")
  /\ ((forall r, JSMap.get (arg_id a) (reminders s) = Some r -> status r <> active)
      -> out = (s, "Reminder " ++ arg_id a ++ " not found.")).
Proof.
  intros out. subst out. unfold handle. cbn [String.eqb Ascii.eqb Bool.eqb]. split.
  - intros (r & Hget & Hact).
    now rewrite (completeReminder_active _ (clock e) (disk e) _ Hget Hact).
  - intros Hno. now rewrite completeReminder_refused.
Qed.

Lemma same_memory_save (w w' : WriteResult FileContent) (s : Store) :
  reminders (saveReminders w s) = reminders (saveReminders w' s)
  /\ notesDir (saveReminders w s) = notesDir (saveReminders w' s).
Proof. now destruct w, w'. Qed.

(** X16. Whether the write of the reminders file succeeds or fails is
    invisible to the client and to the memory of the process: the reply,
    the map in memory and the archive are the same for every outcome of
    the write. *)
Theorem X16_write_outcome_is_invisible (name : string) (args : option Args)
    (e : Env) (w : WriteResult FileContent) (s : Store) :
  snd (handle name args (set_disk w e) s) = snd (handle name args e s)
  /\ reminders (fst (handle name args (set_disk w e) s))
     = reminders (fst (handle name args e s))
  /\ notesDir (fst (handle name args (set_disk w e) s))
     = notesDir (fst (handle name args e s)).
Proof.
  unfold handle, set_disk. cbn [clock clock' random36 archive disk type_error].
  unfold missing_arguments. cbn [type_error].
  destruct (String.eqb name "remind_me").
  { destruct args as [a|]; [|repeat split; reflexivity].
    unfold addReminder. cbn [fst snd].
    split; [reflexivity|]. apply same_memory_save. }
  destruct (String.eqb name "check_reminders").
  { destruct args as [a|]; [|repeat split; reflexivity].
    destruct (getReminders (arg_filter a) s); repeat split; reflexivity. }
  destruct (String.eqb name "complete_reminder").
  { destruct args as [a|]; [|repeat split; reflexivity].
    unfold completeReminder.
    destruct (JSMap.get (arg_id a) (reminders s)); [|repeat split; reflexivity].
    destruct (negb _); [repeat split; reflexivity|]. cbn [fst snd].
    split; [reflexivity|]. apply same_memory_save. }
  destruct (String.eqb name "delete_reminder").
  { destruct args as [a|]; [|repeat split; reflexivity].
    unfold deleteReminder, JSMap.delete.
    destruct (JSMap.has (arg_id a) (reminders s)); cbn [fst snd];
      [|repeat split; reflexivity].
    split; [reflexivity|]. apply same_memory_save. }
  destruct (String.eqb name "move_to_notes").
  { destruct args as [a|]; [|repeat split; reflexivity].
    unfold moveToNotes.
    destruct (JSMap.get (arg_id a) (reminders s)); [|repeat split; reflexivity].
    destruct (negb _); [repeat split; reflexivity|].
    destruct (if dirExists (archive e) then None else mkdirError (archive e));
      [repeat split; reflexivity|].
    destruct (writeError (archive e)); [repeat split; reflexivity|]. cbn [fst snd].
    split; [reflexivity|]. apply same_memory_save. }
  destruct (String.eqb name "clear_old_reminders").
  { destruct args as [a|]; [|repeat split; reflexivity].
    unfold clearOldReminders.
    destruct (fold_left _ _ _) as [m count].
    destruct (0 <? count); cbn [fst snd]; [|repeat split; reflexivity].
    split; [reflexivity|]. apply same_memory_save. }
  destruct (String.eqb name "help"); repeat split; reflexivity.
Qed.
End Requests.

(* ================================================================= *)
(** * The further properties on the scenario *)

(** Instance of X3 on the scenario. *)
Lemma X3_witness :
  dated (reminders demo_store)
  /\ ((forall p, getReminders (Some (Priority_string p)) demo_store
                 = filter (of_priority p) (getReminders None demo_store))
      /\ getReminders None demo_store
         = (getReminders (Some "high") demo_store
            ++ getReminders (Some "normal") demo_store
            ++ getReminders (Some "low") demo_store)%list).
Proof.
  assert (H : dated (reminders demo_store)).
  { intros r Hin _. vm_compute in Hin.
    repeat (destruct Hin as [<-|Hin]; [eexists; vm_compute; reflexivity|]).
    contradiction. }
  split; [exact H|exact (X3_full_listing_is_high_normal_low demo_store H)].
Defined.

(** Instance of X4: a purge on the scenario after "B" was completed. *)
Lemma X4_witness :
  JSMap.ok (reminders demo_completed)
  /\ getReminders (Some "high")
       (fst (clearOldReminders (Some 0) (t0 + 4000) Written demo_completed))
     = getReminders (Some "high") demo_completed.
Proof.
  assert (H : JSMap.ok (reminders demo_completed)) by (vm_compute; distinct_strings).
  split; [exact H|].
  exact (X4_purge_leaves_listings_alone demo_completed (Some 0) (t0 + 4000) Written
           (Some "high") H).
Defined.

(** Instance of X5: deleting "B" from the scenario. *)
Lemma X5_witness :
  keyed_by_id (reminders demo_store) /\ dated (reminders demo_store)
  /\ getReminders None (fst (deleteReminder demo_key Written demo_store))
     = filter (other_id demo_key) (getReminders None demo_store).
Proof.
  assert (Hk : keyed_by_id (reminders demo_store)).
  { split; [vm_compute; distinct_strings|]. intros k r Hin. each_entry Hin. }
  assert (Hd : dated (reminders demo_store)).
  { intros r Hin _. vm_compute in Hin.
    repeat (destruct Hin as [<-|Hin]; [eexists; vm_compute; reflexivity|]).
    contradiction. }
  split; [exact Hk|split; [exact Hd|]].
  exact (X5_delete_removes_one_from_listings demo_store demo_key Written None Hk Hd).
Defined.

(** Instance of X6: completing or moving "B" of the scenario. *)
Lemma X6_witness :
  keyed_by_id (reminders demo_store) /\ dated (reminders demo_store)
  /\ ((snd (completeReminder demo_key (t0 + 3000) Written demo_store) = true ->
       getReminders None (fst (completeReminder demo_key (t0 + 3000) Written demo_store))
       = filter (other_id demo_key) (getReminders None demo_store))
      /\ (success (snd (moveToNotes demo_key None (t0 + 3000) working_sink
                          (t0 + 3001) Written demo_store)) = true ->
          getReminders None
            (fst (moveToNotes demo_key None (t0 + 3000) working_sink
                    (t0 + 3001) Written demo_store))
          = filter (other_id demo_key) (getReminders None demo_store))).
Proof.
  assert (Hk : keyed_by_id (reminders demo_store)).
  { split; [vm_compute; distinct_strings|]. intros k r Hin. each_entry Hin. }
  assert (Hd : dated (reminders demo_store)).
  { intros r Hin _. vm_compute in Hin.
    repeat (destruct Hin as [<-|Hin]; [eexists; vm_compute; reflexivity|]).
    contradiction. }
  split; [exact Hk|split; [exact Hd|]].
  exact (X6_complete_and_move_remove_one_from_listings demo_store demo_key None
           (t0 + 3000) working_sink (t0 + 3001) Written None Hk Hd).
Defined.

(** Instance of X8: adding "D" to the scenario and deleting it again. *)
Lemma X8_witness :
  ~ In (reminder_id (t0 + 6000) "0.m4n5b6v7") (JSMap.keys (reminders demo_store))
  /\ (let added := addReminder "D" None (t0 + 6000) "0.m4n5b6v7" (t0 + 6000)
                     Written demo_store in
      let deleted := deleteReminder (snd added) Written (fst added) in
      snd deleted = true /\ reminders (fst deleted) = reminders demo_store).
Proof.
  assert (Hf : ~ In (reminder_id (t0 + 6000) "0.m4n5b6v7")
                 (JSMap.keys (reminders demo_store))).
  { vm_compute. intuition discriminate. }
  split; [exact Hf|].
  exact (X8_delete_undoes_add demo_store "D" None (t0 + 6000) "0.m4n5b6v7"
           (t0 + 6000) Written Written Hf).
Defined.

(** Instance of X9: a purge with seven days after a purge with zero
    days. *)
Lemma X9_witness :
  JSMap.ok (reminders demo_completed)
  /\ (t0 + 5000) - 7 * 86400 * 1000 <= (t0 + 4000) - 0 * 86400 * 1000
  /\ (let s1 := fst (clearOldReminders (Some 0) (t0 + 4000) Written demo_completed) in
      clearOldReminders (Some 7) (t0 + 5000) Written s1 = (s1, 0)).
Proof.
  assert (H : JSMap.ok (reminders demo_completed)) by (vm_compute; distinct_strings).
  assert (Hle : (t0 + 5000) - 7 * 86400 * 1000 <= (t0 + 4000) - 0 * 86400 * 1000)
    by (vm_compute; discriminate).
  split; [exact H|split; [exact Hle|]].
  exact (X9_second_purge_finds_nothing demo_completed 0 7 (t0 + 4000) (t0 + 5000)
           Written Written H Hle).
Defined.

(** Instance of X10: the scenario and its continuation, from the empty
    store. *)
Lemma X10_witness :
  keyed_by_id (reminders empty_store)
  /\ keyed_by_id (reminders (run (demo_calls ++ demo_followup) empty_store)).
Proof.
  assert (H : keyed_by_id (reminders empty_store)).
  { split; [constructor|]. intros k r []. }
  split; [exact H|].
  exact (X10_calls_keep_store_keyed_by_id (demo_calls ++ demo_followup) empty_store H).
Defined.

(** A request for the scenario: the listing as the client sees it starts
    with "A", and a name listed in the test file of the repository is not a
    tool. *)
Example demo_requests :
  let e := mkEnv (t0 + 9000) (t0 + 9001) "0.qqqqqqq" working_sink Written
             "Cannot destructure property 'filter' of 'args' as it is undefined." in
  let a := mkArgs "" None (Some "high") demo_key None None in
  substring 0 52 (snd (handle "check_reminders" (Some a) e demo_store))
  = "Active reminders:" ++ newline ++ newline ++ "[HIGH] rem_1700000000000_k3v9x: A"
  /\ snd (handle "list_reminders" (Some a) e demo_store)
     = "Error: Unknown tool: list_reminders"
  /\ snd (handle "check_reminders" None e demo_store)
     = "Error: Cannot destructure property 'filter' of 'args' as it is undefined.".
Proof. repeat split; reflexivity. Qed.
